(** * System health monitor: process, network and report-writing logic

    A shallow embedding of [health_monitor/processes.py],
    [health_monitor/network.py] and the parts of [health_monitor/logger.py]
    that choose the rendering and write the report file, together with the
    properties of the collection-and-report pipeline.

    Conventions of the embedding.
    - What the operating system answers (the process table, the connection
      list, the clock, the outcome of a file write) is an explicit argument of
      the function that asks for it: one argument per call of the probe.
    - Python exceptions are values of [exn]; a function that can raise returns
      a [result].
    - Python [float]s are their exact rational values ([Q]); NaN and the
      infinities are not represented.
    - Python [dict]s whose iteration order plays no role are [gmap]s. *)

From Stdlib Require Import ZArith QArith String Ascii List Permutation Lia.
From Stdlib Require Import Sorting.Sorted.
From stdpp Require Import gmap strings list fin_maps.
Import ListNotations.

Local Open Scope string_scope.
Local Open Scope nat_scope.
Local Open Scope list_scope.

(** ** Exceptions and fallible computations *)

Inductive exn : Type :=
  | NoSuchProcess
  | ZombieProcess
  | AccessDenied
  | AttributeError
  | OSError
  | RuntimeError.

Definition exn_eqb (a b : exn) : bool :=
  match a, b with
  | NoSuchProcess, NoSuchProcess
  | ZombieProcess, ZombieProcess
  | AccessDenied, AccessDenied
  | AttributeError, AttributeError
  | OSError, OSError
  | RuntimeError, RuntimeError => true
  | _, _ => false
  end.

(** [isinstance e cls]: psutil declares [ZombieProcess] as a subclass of
    [NoSuchProcess]; the other classes used here are unrelated. *)
Definition isinstance (e cls : exn) : bool :=
  exn_eqb e cls ||
  match e, cls with
  | ZombieProcess, NoSuchProcess => true
  | _, _ => false
  end.

(** [except (c1, c2, ...)]: the clause handles [e] when [e] is an instance of
    one of the listed classes. *)
Definition handles (classes : list exn) (e : exn) : bool :=
  existsb (isinstance e) classes.

Inductive result (A : Type) : Type :=
  | Ok (a : A)
  | Raise (e : exn).
Arguments Ok {A} a.
Arguments Raise {A} e.

#[global] Instance result_ret : MRet result := λ A a, Ok a.

#[global] Instance result_bind : MBind result := λ A B k r,
  match r with
  | Ok a => k a
  | Raise e => Raise e
  end.

#[global] Instance result_fmap : FMap result := λ A B f r,
  match r with
  | Ok a => Ok (f a)
  | Raise e => Raise e
  end.

(** ** Python primitives used by the collectors *)

(** [l[:stop]]: a negative [stop] counts from the end and is clamped at 0. *)
Definition slice_to {A} (l : list A) (stop : Z) : list A :=
  if (stop <? 0)%Z
  then firstn (Z.to_nat (Z.max 0 (Z.of_nat (length l) + stop))) l
  else firstn (Z.to_nat stop) l.

(** [x or 0.0] on a float that may be [None]. *)
Definition or_zero (x : option Q) : Q :=
  match x with
  | Some q => if Qeq_bool q 0 then 0%Q else q
  | None => 0%Q
  end.

(** [s or default] on a string that may be [None]. *)
Definition or_str (x : option string) (default : string) : string :=
  match x with
  | Some "" => default
  | Some s => s
  | None => default
  end.

(** Round to the nearest integer, halves to the even neighbour. *)
Definition round_half_even (q : Q) : Z :=
  let n := Qnum q in
  let d := Zpos (Qden q) in
  let fl := (n / d)%Z in
  let r := (n mod d)%Z in
  match (2 * r ?= d)%Z with
  | Lt => fl
  | Gt => (fl + 1)%Z
  | Eq => if Z.even fl then fl else (fl + 1)%Z
  end.

(** [round(q, 2)]: the result is the exact decimal, not re-rounded to a
    binary float. *)
Definition round2 (q : Q) : Q :=
  Qmake (round_half_even (q * 100)) 100.

(** ASCII lower-casing; bytes outside [A-Z] are left as they are. *)
Definition lower_ascii (c : ascii) : ascii :=
  let n := nat_of_ascii c in
  if (65 <=? n) && (n <=? 90) then ascii_of_nat (n + 32) else c.

Fixpoint lower (s : string) : string :=
  match s with
  | EmptyString => EmptyString
  | String c s' => String (lower_ascii c) (lower s')
  end.

(** [needle in haystack] on strings. *)
Fixpoint contains (needle haystack : string) : bool :=
  String.prefix needle haystack ||
  match haystack with
  | EmptyString => false
  | String _ rest => contains needle rest
  end.

(** [sum(d.values())]. *)
Definition sum_values (d : gmap string nat) : nat :=
  map_fold (λ _ v acc, v + acc) 0 d.

(** ** Stable sorting

    [list.sort] and [sorted] are stable.  For a total preorder on the keys all
    stable sorts return the same list, so stable insertion stands for them.
    With [reverse=True] CPython reverses the list, sorts it, and reverses the
    result, which keeps records with equal keys in their original order. *)
Section StableSort.
Context {A K : Type} (leb : K → K → bool) (key : A → K).

Fixpoint stable_insert (x : A) (l : list A) : list A :=
  match l with
  | [] => [x]
  | y :: l' =>
      if leb (key x) (key y) then x :: y :: l' else y :: stable_insert x l'
  end.

Definition stable_sort (l : list A) : list A := foldr stable_insert [] l.

Definition py_sort (reverse : bool) (l : list A) : list A :=
  if reverse then rev (stable_sort (rev l)) else stable_sort l.

(** The preorder the keys induce on the records, and the test that a
    record's key is equivalent to [k]. *)
Definition key_le (x y : A) : Prop := leb (key x) (key y) = true.

Definition same_key (k : K) (x : A) : bool := leb (key x) k && leb k (key x).

End StableSort.

(** ** processes.py *)
Module Processes.

(** What [proc.info] holds for one process.  psutil fills a field it may not
    read with [None]; the pid is always there.  [memory_info] is reduced to
    its [rss] field, the only one read. *)
Record pinfo : Type := {
  info_pid : Z;
  info_name : option string;
  info_username : option string;
  info_status : option string;
  info_cpu_percent : option Q;
  info_memory_percent : option Q;
  info_memory_info : option Z;
  info_num_threads : option Z;
  info_create_time : option Q
}.

(** One entry of the list [enumerate_processes] builds. *)
Record process : Type := {
  pid : Z;
  name : option string;
  username : string;
  status : option string;
  cpu_percent : Q;
  memory_percent : Q;
  memory_mb : Q;
  num_threads : option Z;
  create_time : option Q
}.

(** One turn of [psutil.process_iter]: the process answers, or reading it
    raises. *)
Abbreviation process_table := (list (result pinfo)).

Definition make_process (pi : pinfo) : process := {|
  pid := info_pid pi;
  name := info_name pi;
  username := or_str (info_username pi) "N/A";
  status := info_status pi;
  cpu_percent := or_zero (info_cpu_percent pi);
  memory_percent := round2 (or_zero (info_memory_percent pi));
  memory_mb :=
    match info_memory_info pi with
    | Some rss => round2 (inject_Z rss / inject_Z (1024 ^ 2))
    | None => 0%Q
    end;
  num_threads := info_num_threads pi;
  create_time := info_create_time pi
|}.

(** The [for proc in psutil.process_iter(...)] loop of
    [enumerate_processes]; [processes] is the list built so far. *)
Fixpoint enumerate_loop (processes : list process) (table : process_table)
    : result (list process) :=
  match table with
  | [] => Ok processes
  | Ok pi :: rest => enumerate_loop (processes ++ [make_process pi]) rest
  | Raise e :: rest =>
      if handles [NoSuchProcess; AccessDenied; ZombieProcess] e
      then enumerate_loop processes rest
      else Raise e
  end.

(** The [if sort_by == ...] chain.  [x["name"].lower()] raises
    [AttributeError] on a name that is [None]; the keys are computed for
    every record before any comparison. *)
Definition sort_processes (sort_by : string) (processes : list process)
    : result (list process) :=
  if String.eqb sort_by "memory" then
    Ok (py_sort Qle_bool memory_percent true processes)
  else if String.eqb sort_by "cpu" then
    Ok (py_sort Qle_bool cpu_percent true processes)
  else if String.eqb sort_by "pid" then
    Ok (py_sort Z.leb pid false processes)
  else if String.eqb sort_by "name" then
    if forallb (λ x, match name x with Some _ => true | None => false end)
         processes
    then Ok (py_sort String.leb (λ x, lower (default "" (name x))) false
               processes)
    else Raise AttributeError
  else Ok processes.

(** [if limit: processes = processes[:limit]]: [None] and [0] are false. *)
Definition apply_limit (limit : option Z) (processes : list process)
    : list process :=
  match limit with
  | Some n => if (n =? 0)%Z then processes else slice_to processes n
  | None => processes
  end.

Definition enumerate_processes (table : process_table) (sort_by : string)
    (limit : option Z) : result (list process) :=
  processes ← enumerate_loop [] table;
  processes ← sort_processes sort_by processes;
  Ok (apply_limit limit processes).

Definition initial_status_count : gmap string nat :=
  <["running" := 0]> (<["sleeping" := 0]> (<["stopped" := 0]>
    (<["zombie" := 0]> (<["other" := 0]> ∅)))).

(** [status_count[k] += 1] on a plain dict.  Both uses have [k] among the
    keys; on a key that is absent Python raises [KeyError], and [alter] leaves
    the dict as it is. *)
Definition increment (k : string) (status_count : gmap string nat)
    : gmap string nat :=
  alter S k status_count.

(** The body of the [try] in [get_process_summary]. *)
Definition count_status (status_count : gmap string nat)
    (status : option string) : gmap string nat :=
  match status with
  | Some s =>
      match status_count !! s with
      | Some _ => increment s status_count
      | None => increment "other" status_count
      end
  | None => increment "other" status_count
  end.

Fixpoint summary_loop (status_count : gmap string nat) (table : process_table)
    : result (gmap string nat) :=
  match table with
  | [] => Ok status_count
  | Ok pi :: rest => summary_loop (count_status status_count (info_status pi)) rest
  | Raise e :: rest =>
      if handles [NoSuchProcess; AccessDenied] e
      then summary_loop status_count rest
      else Raise e
  end.

(** [{"total_processes": total, **status_count}]: the keys of
    [status_count] are written last. *)
Definition get_process_summary (table : process_table)
    : result (gmap string nat) :=
  status_count ← summary_loop initial_status_count table;
  let total := sum_values status_count in
  Ok (status_count ∪ {["total_processes" := total]}).

Record process_info : Type := {
  summary : gmap string nat;
  top_processes_by_memory : list process;
  top_processes_by_cpu : list process
}.

(** [collect_process_info] reads the process table three times, once per
    call below, in this order. *)
Definition collect_process_info
    (table_summary table_memory table_cpu : process_table) (top_n : Z)
    : result process_info :=
  s ← get_process_summary table_summary;
  by_memory ← enumerate_processes table_memory "memory" (Some top_n);
  by_cpu ← enumerate_processes table_cpu "cpu" (Some top_n);
  Ok {| summary := s;
        top_processes_by_memory := by_memory;
        top_processes_by_cpu := by_cpu |}.

End Processes.

(** ** network.py *)
Module Network.

(** A field that holds an [int] or the sentinel string ["N/A"]. *)
Inductive int_or_na : Type :=
  | IntVal (z : Z)
  | NA.

(** One [sconn] tuple of [psutil.net_connections].  [conn_family] and
    [conn_type] hold what [str] returns on the two enum fields; an address is
    an [(ip, port)] pair or the empty tuple. *)
Record sconn : Type := {
  conn_fd : Z;
  conn_family : string;
  conn_type : string;
  conn_laddr : option (string * Z);
  conn_raddr : option (string * Z);
  conn_status : string;
  conn_pid : option Z
}.

Record connection : Type := {
  fd : Z;
  family : string;
  type : string;
  local_address : string;
  local_port : int_or_na;
  remote_address : string;
  remote_port : int_or_na;
  status : string;
  pid : int_or_na
}.

(** What [psutil.net_connections(kind='inet')] answers: the call raises, or
    it returns a list whose items may raise when their fields are read. *)
Abbreviation connections_probe := (result (list (result sconn))).

(** [addr.ip if addr else "N/A"] and [addr.port if addr else "N/A"]. *)
Definition ip_or_na (addr : option (string * Z)) : string :=
  match addr with
  | Some (ip, _) => ip
  | None => "N/A"
  end.

Definition port_or_na (addr : option (string * Z)) : int_or_na :=
  match addr with
  | Some (_, p) => IntVal p
  | None => NA
  end.

(** [conn.pid or "N/A"]. *)
Definition pid_or_na (p : option Z) : int_or_na :=
  match p with
  | Some z => if (z =? 0)%Z then NA else IntVal z
  | None => NA
  end.

Definition make_connection (conn : sconn) : connection := {|
  fd := conn_fd conn;
  family := conn_family conn;
  type := conn_type conn;
  local_address := ip_or_na (conn_laddr conn);
  local_port := port_or_na (conn_laddr conn);
  remote_address := ip_or_na (conn_raddr conn);
  remote_port := port_or_na (conn_raddr conn);
  status := conn_status conn;
  pid := pid_or_na (conn_pid conn)
|}.

(** The [for conn in ...] loop with its inner [try]: the list built so far,
    and the exception that left the loop, if one did. *)
Fixpoint connections_loop (connections : list connection)
    (items : list (result sconn)) : list connection * option exn :=
  match items with
  | [] => (connections, None)
  | Ok conn :: rest =>
      connections_loop (connections ++ [make_connection conn]) rest
  | Raise e :: rest =>
      if handles [AttributeError; AccessDenied] e
      then connections_loop connections rest
      else (connections, Some e)
  end.

(** The outer [try ... except psutil.AccessDenied: pass], then
    [return connections]. *)
Definition collect_network_connections (probe : connections_probe)
    : result (list connection) :=
  let '(connections, raised) :=
    match probe with
    | Ok items => connections_loop [] items
    | Raise e => ([], Some e)
    end in
  match raised with
  | None => Ok connections
  | Some e => if handles [AccessDenied] e then Ok connections else Raise e
  end.

Module Listening.
Record entry : Type := {
  port : Z;
  address : string;
  pid : int_or_na
}.
End Listening.

(** The three accumulators of [get_network_summary]. *)
Record counters : Type := {
  status_count : gmap string nat;
  protocol_count : gmap string nat;
  listening : list Listening.entry
}.

(** [d[k] += 1] on a [defaultdict(int)]. *)
Definition increment (k : string) (d : gmap string nat) : gmap string nat :=
  <[k := S (default 0 (d !! k))]> d.

(** The body of [for conn in connections].  A port that passed the
    [!= "N/A"] test is an [int]. *)
Definition count_connection (acc : counters) (conn : connection) : counters := {|
  status_count := increment (status conn) (status_count acc);
  protocol_count :=
    if contains "STREAM" (type conn) then increment "TCP" (protocol_count acc)
    else if contains "DGRAM" (type conn) then increment "UDP" (protocol_count acc)
    else protocol_count acc;
  listening :=
    match String.eqb (status conn) "LISTEN", local_port conn with
    | true, IntVal p =>
        listening acc ++
          [{| Listening.port := p;
              Listening.address := local_address conn;
              Listening.pid := pid conn |}]
    | _, _ => listening acc
    end
|}.

Definition initial_counters : counters :=
  {| status_count := ∅; protocol_count := ∅; listening := [] |}.

Record network_summary : Type := {
  total_connections : nat;
  by_status : gmap string nat;
  by_protocol : gmap string nat;
  listening_ports : list Listening.entry
}.

Definition summarize (connections : list connection) : network_summary :=
  let acc := foldl count_connection initial_counters connections in
  {| total_connections := length connections;
     by_status := status_count acc;
     by_protocol := protocol_count acc;
     listening_ports := py_sort Z.leb Listening.port false (listening acc) |}.

Definition get_network_summary (probe : connections_probe)
    : result network_summary :=
  connections ← collect_network_connections probe;
  Ok (summarize connections).

Section Info.
(** [collect_network_interfaces] takes no part in the properties below: its
    outcome is an argument. *)
Context {Interfaces : Type}.

Record network_info : Type := {
  summary : network_summary;
  interfaces : Interfaces;
  all_connections : option (list connection)
}.

(** [collect_network_info] asks for the connections once for the summary and,
    when [include_all_connections] is set, a second time. *)
Definition collect_network_info (probe_summary : connections_probe)
    (probe_interfaces : result Interfaces) (include_all_connections : bool)
    (probe_all : connections_probe) : result network_info :=
  s ← get_network_summary probe_summary;
  ifs ← probe_interfaces;
  if include_all_connections then
    conns ← collect_network_connections probe_all;
    Ok {| summary := s; interfaces := ifs; all_connections := Some conns |}
  else
    Ok {| summary := s; interfaces := ifs; all_connections := None |}.
End Info.
Arguments network_info : clear implicits.

End Network.

(** ** logger.py *)
Module Logger.

(** The file store: path to content.  Directories are not represented. *)
Abbreviation files := (gmap string string).

Fixpoint string_take (n : nat) (s : string) : string :=
  match n, s with
  | S n', String c s' => String c (string_take n' s')
  | _, _ => EmptyString
  end.

(** How the operating system answers [open(filepath, 'w')] followed by
    [f.write(content)] and the close at the end of the [with] block: all of it
    succeeds; the open raises; or the open succeeds and an error is raised
    after the file has accepted the first [accepted] characters. *)
Inductive io_outcome : Type :=
  | IoDone
  | IoOpenError (e : exn)
  | IoWriteError (accepted : nat) (e : exn).

(** [open(path, 'w')] creates the file or truncates it. *)
Definition open_w (fs : files) (path : string) (io : io_outcome)
    : result unit * files :=
  match io with
  | IoOpenError e => (Raise e, fs)
  | _ => (Ok (), <[path := ""]> fs)
  end.

(** The one [f.write(content)] on the file just opened, up to its close. *)
Definition write_all (fs : files) (path content : string) (io : io_outcome)
    : result unit * files :=
  match io with
  | IoWriteError accepted e =>
      (Raise e, <[path := string_take accepted content]> fs)
  | _ => (Ok (), <[path := content]> fs)
  end.

Record system_info : Type := {
  hostname : string;
  platform : string;
  platform_release : string;
  platform_version : string;
  architecture : string;
  processor : string;
  os_version : string
}.

(** The answers of the [platform] module. *)
Record platform_probe : Type := {
  node : string;
  system : string;
  release : string;
  version : string;
  machine : string;
  processor_name : string
}.

Record HealthLogger : Type := {
  output_dir : string;
  format : string
}.

(** [__init__]: [mkdir] succeeds or raises; the format is lower-cased. *)
Definition init (output_dir format : string) (mkdir : option exn)
    : result HealthLogger :=
  match mkdir with
  | Some e => Raise e
  | None => Ok {| output_dir := output_dir; format := lower format |}
  end.

(** [generate_filename]; [now] is the clock reading already formatted by
    [strftime("%Y%m%d_%H%M%S")]. *)
Definition generate_filename (self : HealthLogger) (now : string) : string :=
  let extension := if String.eqb (format self) "json" then "json" else "log" in
  "health_monitor_" +:+ now +:+ "." +:+ extension.

Section WriteLog.
(** The collected data and the two renderers ([json.dumps] with its options,
    and the text layout) are arguments, as is [pathlib]'s [/]. *)
Context {Data : Type}.

Record enhanced_data : Type := {
  timestamp : string;
  host : system_info;
  data : Data
}.

Context (format_json format_text : enhanced_data → string).
Context (joinpath : string → string → string).

Definition enhance (iso_now : string) (p : platform_probe) (d : Data)
    : enhanced_data := {|
  timestamp := iso_now;
  host := {|
    hostname := node p;
    platform := system p;
    platform_release := release p;
    platform_version := version p;
    architecture := machine p;
    processor := processor_name p;
    os_version := system p +:+ " " +:+ release p
  |};
  data := d
|}.

(** [# Format data]. *)
Definition render (self : HealthLogger) (e : enhanced_data) : string :=
  if String.eqb (format self) "json" then format_json e else format_text e.

(** [write_log]: [iso_now] and [now] are the two clock readings, [io] the
    answer of the file system.  Returns the path, or the exception, and the
    file store afterwards. *)
Definition write_log (self : HealthLogger) (iso_now : string)
    (p : platform_probe) (d : Data) (now : string) (fs : files)
    (io : io_outcome) : result string * files :=
  let content := render self (enhance iso_now p d) in
  let filename := generate_filename self now in
  let filepath := joinpath (output_dir self) filename in
  match open_w fs filepath io with
  | (Raise e, fs1) => (Raise e, fs1)
  | (Ok _, fs1) =>
      match write_all fs1 filepath content io with
      | (Raise e, fs2) => (Raise e, fs2)
      | (Ok _, fs2) => (Ok filepath, fs2)
      end
  end.
End WriteLog.
Arguments enhanced_data : clear implicits.

End Logger.

(** ** metrics.py *)
Module Metrics.

Record cpu_metrics : Type := {
  cpu_percent : Q;
  cpu_count_logical : option Z;
  cpu_count_physical : option Z;
  cpu_per_core : list Q
}.

(** [collect_cpu_metrics]: the arguments are the answers of the four psutil
    calls, in the order of the calls. *)
Definition collect_cpu_metrics (overall : Q) (logical physical : option Z)
    (per_core : list Q) : cpu_metrics := {|
  cpu_percent := overall;
  cpu_count_logical := logical;
  cpu_count_physical := physical;
  cpu_per_core := per_core
|}.

(** [psutil.virtual_memory()] and [psutil.swap_memory()], the fields read. *)
Record svmem : Type := {
  vm_total : Z;
  vm_available : Z;
  vm_used : Z;
  vm_percent : Q
}.

Record sswap : Type := {
  sw_total : Z;
  sw_used : Z;
  sw_percent : Q
}.

(** [round(bytes / (1024**3), 2)]. *)
Definition to_gb (bytes : Z) : Q :=
  round2 (inject_Z bytes / inject_Z (1024 ^ 3)).

Record memory_metrics : Type := {
  total : Z;
  available : Z;
  used : Z;
  percent : Q;
  total_gb : Q;
  available_gb : Q;
  used_gb : Q;
  swap_total : Z;
  swap_used : Z;
  swap_percent : Q
}.

Definition collect_memory_metrics (mem : svmem) (swap : sswap)
    : memory_metrics := {|
  total := vm_total mem;
  available := vm_available mem;
  used := vm_used mem;
  percent := vm_percent mem;
  total_gb := to_gb (vm_total mem);
  available_gb := to_gb (vm_available mem);
  used_gb := to_gb (vm_used mem);
  swap_total := sw_total swap;
  swap_used := sw_used swap;
  swap_percent := sw_percent swap
|}.

(** One [sdiskpart] of [psutil.disk_partitions()], the fields read. *)
Record sdiskpart : Type := {
  part_device : string;
  part_mountpoint : string;
  part_fstype : string
}.

Record sdiskusage : Type := {
  du_total : Z;
  du_used : Z;
  du_free : Z;
  du_percent : Q
}.

Module Disk.
Record entry : Type := {
  device : string;
  fstype : string;
  total : Z;
  used : Z;
  free : Z;
  percent : Q;
  total_gb : Q;
  used_gb : Q;
  free_gb : Q
}.
End Disk.

Definition make_disk_entry (partition : sdiskpart) (usage : sdiskusage)
    : Disk.entry := {|
  Disk.device := part_device partition;
  Disk.fstype := part_fstype partition;
  Disk.total := du_total usage;
  Disk.used := du_used usage;
  Disk.free := du_free usage;
  Disk.percent := du_percent usage;
  Disk.total_gb := to_gb (du_total usage);
  Disk.used_gb := to_gb (du_used usage);
  Disk.free_gb := to_gb (du_free usage)
|}.

(** The partitions in the order of [psutil.disk_partitions()], each with the
    answer of [psutil.disk_usage] for its mount point. *)
Abbreviation partitions_probe := (list (sdiskpart * result sdiskusage)).

(** The loop of [collect_disk_metrics] with its
    [except (PermissionError, OSError)].  [PermissionError] is a subclass of
    [OSError]; both are the [OSError] of [exn]. *)
Fixpoint disk_loop (disk_info : gmap string Disk.entry)
    (partitions : partitions_probe) : result (gmap string Disk.entry) :=
  match partitions with
  | [] => Ok disk_info
  | (partition, Ok usage) :: rest =>
      disk_loop
        (<[part_mountpoint partition := make_disk_entry partition usage]>
           disk_info)
        rest
  | (partition, Raise e) :: rest =>
      if handles [OSError; OSError] e
      then disk_loop disk_info rest
      else Raise e
  end.

Definition collect_disk_metrics (partitions : partitions_probe)
    : result (gmap string Disk.entry) :=
  disk_loop ∅ partitions.

Record all_metrics : Type := {
  cpu : cpu_metrics;
  memory : memory_metrics;
  disk : gmap string Disk.entry
}.

(** The answers [collect_all_metrics] needs, in the order it asks. *)
Record metrics_probe : Type := {
  ask_cpu_percent : Q;
  ask_cpu_count_logical : option Z;
  ask_cpu_count_physical : option Z;
  ask_cpu_per_core : list Q;
  ask_virtual_memory : svmem;
  ask_swap_memory : sswap;
  ask_partitions : partitions_probe
}.

Definition collect_all_metrics (probe : metrics_probe) : result all_metrics :=
  let c := collect_cpu_metrics (ask_cpu_percent probe)
             (ask_cpu_count_logical probe) (ask_cpu_count_physical probe)
             (ask_cpu_per_core probe) in
  let m := collect_memory_metrics (ask_virtual_memory probe)
             (ask_swap_memory probe) in
  d ← collect_disk_metrics (ask_partitions probe);
  Ok {| cpu := c; memory := m; disk := d |}.

End Metrics.

(** ** network.py: the interfaces *)
Module Interfaces.

(** One [snicaddr] of [psutil.net_if_addrs()]; [nic_family] holds what [str]
    returns on the enum field. *)
Record snicaddr : Type := {
  nic_family : string;
  nic_address : string;
  nic_netmask : option string;
  nic_broadcast : option string
}.

(** One entry of [psutil.net_if_stats()], the fields read. *)
Record snicstats : Type := {
  nic_isup : bool;
  nic_speed : Z;
  nic_mtu : Z
}.

(** One entry of [psutil.net_io_counters(pernic=True)]. *)
Record snetio : Type := {
  bytes_sent : Z;
  bytes_recv : Z;
  packets_sent : Z;
  packets_recv : Z;
  errin : Z;
  errout : Z;
  dropin : Z;
  dropout : Z
}.

Record address_entry : Type := {
  family : string;
  address : string;
  netmask : option string;
  broadcast : option string
}.

(** [io_stats] is the dict of the eight counters, a key that is set only for
    an interface the counters name. *)
Record interface_info : Type := {
  addresses : list address_entry;
  is_up : bool;
  speed : Z;
  mtu : Z;
  io_stats : option snetio
}.

Definition make_address (addr : snicaddr) : address_entry := {|
  family := nic_family addr;
  address := nic_address addr;
  netmask := nic_netmask addr;
  broadcast := nic_broadcast addr
|}.

(** The body of [for interface_name, addr_list in addrs.items()]. *)
Definition make_interface (stats : gmap string snicstats)
    (io_counters : gmap string snetio) (interface_name : string)
    (addr_list : list snicaddr) : interface_info := {|
  addresses := foldl (λ acc addr, acc ++ [make_address addr]) [] addr_list;
  is_up :=
    match stats !! interface_name with
    | Some stat => nic_isup stat
    | None => false
    end;
  speed :=
    match stats !! interface_name with
    | Some stat => nic_speed stat
    | None => 0%Z
    end;
  mtu :=
    match stats !! interface_name with
    | Some stat => nic_mtu stat
    | None => 0%Z
    end;
  io_stats := io_counters !! interface_name
|}.

(** [collect_network_interfaces]: [addrs] is the dict of
    [psutil.net_if_addrs()] as the list of its items in iteration order. *)
Definition collect_network_interfaces (addrs : list (string * list snicaddr))
    (stats : gmap string snicstats) (io_counters : gmap string snetio)
    : gmap string interface_info :=
  foldl
    (λ interfaces item,
       <[item.1 := make_interface stats io_counters item.1 item.2]> interfaces)
    ∅ addrs.

End Interfaces.

(** ** collector.py *)
Module Collector.

(** The line feed of ["\n"]. *)
Definition nl : string := String (ascii_of_nat 10) EmptyString.

(** [c * n] for a one-character string. *)
Fixpoint repeat_char (c : ascii) (n : nat) : string :=
  match n with
  | O => EmptyString
  | S n' => String c (repeat_char c n')
  end.

Record HealthCollector : Type := {
  top_processes : Z;
  include_all_connections : bool;
  logger : Logger.HealthLogger
}.

(** [__init__]: building the logger creates the output directory. *)
Definition init (top_processes : Z) (include_all_connections : bool)
    (output_dir output_format : string) (mkdir : option exn)
    : result HealthCollector :=
  lg ← Logger.init output_dir output_format mkdir;
  Ok {| top_processes := top_processes;
        include_all_connections := include_all_connections;
        logger := lg |}.

(** The dict [collect_all] returns. *)
Record health_data : Type := {
  metrics : Metrics.all_metrics;
  processes : Processes.process_info;
  network : Network.network_info (gmap string Interfaces.interface_info)
}.

(** Everything the operating system is asked during one [collect_all], in
    the order of the questions. *)
Record os_answers : Type := {
  ask_metrics : Metrics.metrics_probe;
  ask_table_summary : Processes.process_table;
  ask_table_memory : Processes.process_table;
  ask_table_cpu : Processes.process_table;
  ask_connections_summary : Network.connections_probe;
  ask_if_addrs : list (string * list Interfaces.snicaddr);
  ask_if_stats : gmap string Interfaces.snicstats;
  ask_if_io_counters : gmap string Interfaces.snetio;
  ask_connections_all : Network.connections_probe
}.

(** [collect_all]: the result, and the lines printed until it returned or
    raised. *)
Definition collect_all (self : HealthCollector) (os : os_answers)
    : result health_data * list string :=
  let out1 := ["Collecting system metrics..."] in
  match Metrics.collect_all_metrics (ask_metrics os) with
  | Raise e => (Raise e, out1)
  | Ok m =>
      let out2 := out1 ++ ["Enumerating processes..."] in
      match Processes.collect_process_info (ask_table_summary os)
              (ask_table_memory os) (ask_table_cpu os) (top_processes self)
      with
      | Raise e => (Raise e, out2)
      | Ok p =>
          let out3 := out2 ++ ["Analyzing network connections..."] in
          match Network.collect_network_info (ask_connections_summary os)
                  (Ok (Interfaces.collect_network_interfaces (ask_if_addrs os)
                         (ask_if_stats os) (ask_if_io_counters os)))
                  (include_all_connections self) (ask_connections_all os)
          with
          | Raise e => (Raise e, out3)
          | Ok n => (Ok {| metrics := m; processes := p; network := n |}, out3)
          end
      end
  end.

Section Run.
Context (format_json format_text : Logger.enhanced_data health_data → string).
Context (joinpath : string → string → string).

(** [run]: the path or the exception, the file store afterwards, and the
    lines printed.  [iso_now] and [now] are the clock readings of
    [write_log], [io] the answer of the file system to its write. *)
Definition run (self : HealthCollector) (os : os_answers)
    (iso_now : string) (p : Logger.platform_probe) (now : string)
    (fs : Logger.files) (io : Logger.io_outcome)
    : result string * Logger.files * list string :=
  let out0 :=
    ["Starting System Health & Integrity Monitor..."; repeat_char "-" 60] in
  match collect_all self os with
  | (Raise e, printed) => (Raise e, fs, out0 ++ printed)
  | (Ok d, printed) =>
      let out1 := out0 ++ printed ++ [nl +:+ "Writing results to log file..."] in
      match Logger.write_log format_json format_text joinpath (logger self)
              iso_now p d now fs io
      with
      | (Raise e, fs') => (Raise e, fs', out1)
      | (Ok log_file, fs') =>
          (Ok log_file, fs',
           out1 ++ [nl +:+ "Health monitoring complete!";
                    "Report saved to: " +:+ log_file;
                    repeat_char "-" 60])
      end
  end.
End Run.

End Collector.

(** ** Vocabulary of the statements *)

(** The items of a probe's answer that did not raise, in order. *)
Fixpoint answered {A} (items : list (result A)) : list A :=
  match items with
  | [] => []
  | Ok a :: rest => a :: answered rest
  | Raise _ :: rest => answered rest
  end.

(** Every item that raises is handled by an [except] clause for [classes]. *)
Definition all_handled {A} (classes : list exn) (items : list (result A))
    : bool :=
  forallb (λ r, match r with Ok _ => true | Raise e => handles classes e end)
    items.

(** Non-increasing order of a rational field along a list. *)
Definition non_increasing {A} (field : A → Q) (l : list A) : Prop :=
  StronglySorted (λ x y, (field y <= field x)%Q) l.

(** Non-decreasing order of an integer field along a list. *)
Definition non_decreasing {A} (field : A → Z) (l : list A) : Prop :=
  StronglySorted (λ x y, (field x <= field y)%Z) l.

(** How many elements of a list pass a test. *)
Definition count_if {A} (f : A → bool) (l : list A) : nat :=
  length (List.filter f l).

Module ProcessSpec.
Import Processes.

(** The records of the processes that survive enumeration. *)
Definition survivors (table : process_table) : list process :=
  map make_process (answered table).

Definition status_buckets : list string :=
  ["running"; "sleeping"; "stopped"; "zombie"; "other"].

(** The bucket a status belongs to: itself when it names a bucket, ["other"]
    for every other status and for a status that is [None]. *)
Definition bucket_of (status : option string) : string :=
  match status with
  | Some s => if existsb (String.eqb s) status_buckets then s else "other"
  | None => "other"
  end.

(** The dict holds exactly the five buckets. *)
Definition has_buckets (status_count : gmap string nat) : Prop :=
  ∀ k, is_Some (status_count !! k) ↔ k ∈ status_buckets.

(** How many of the answering processes fall into bucket [b]. *)
Definition bucket_count (b : string) (infos : list pinfo) : nat :=
  length (List.filter (λ pi, String.eqb (bucket_of (info_status pi)) b) infos).

End ProcessSpec.

Module NetworkSpec.
Import Network.

(** A connection in the LISTEN state whose local port is known. *)
Definition is_bound_listener (conn : connection) : bool :=
  String.eqb (status conn) "LISTEN" &&
  match local_port conn with IntVal _ => true | NA => false end.

(** The [{port, address, pid}] record of a connection. *)
Definition entry_of (conn : connection) : Listening.entry := {|
  Listening.port := match local_port conn with IntVal p => p | NA => 0%Z end;
  Listening.address := local_address conn;
  Listening.pid := pid conn
|}.

(** The listening records in enumeration order. *)
Definition listeners (connections : list connection) : list Listening.entry :=
  map entry_of (List.filter is_bound_listener connections).

Definition is_tcp (conn : connection) : bool := contains "STREAM" (type conn).

Definition is_udp (conn : connection) : bool :=
  negb (contains "STREAM" (type conn)) && contains "DGRAM" (type conn).

Definition has_status (s : string) (conn : connection) : bool :=
  String.eqb (status conn) s.

Definition empty_summary : network_summary := {|
  total_connections := 0;
  by_status := ∅;
  by_protocol := ∅;
  listening_ports := []
|}.

End NetworkSpec.

(** ** Sample probe answers *)
Module Samples.

Definition info (pid : Z) (name : string) (memory cpu : Q) (status : string)
    : Processes.pinfo := {|
  Processes.info_pid := pid;
  Processes.info_name := Some name;
  Processes.info_username := Some "root";
  Processes.info_status := Some status;
  Processes.info_cpu_percent := Some cpu;
  Processes.info_memory_percent := Some memory;
  Processes.info_memory_info := Some (3 * 1024 * 1024)%Z;
  Processes.info_num_threads := Some 1%Z;
  Processes.info_create_time := None
|}.

(** Three processes answer, one vanished during enumeration. *)
Definition table : Processes.process_table :=
  [ Ok (info 1 "init" (1 # 2) 3 "sleeping");
    Raise NoSuchProcess;
    Ok (info 2 "cron" (5 # 2) 1 "idle");
    Ok (info 3 "bash" (1 # 2) 9 "running") ].

Definition conn (type : string) (laddr : option (string * Z))
    (status : string) (pid : option Z) : Network.sconn := {|
  Network.conn_fd := (-1)%Z;
  Network.conn_family := "AddressFamily.AF_INET";
  Network.conn_type := type;
  Network.conn_laddr := laddr;
  Network.conn_raddr := None;
  Network.conn_status := status;
  Network.conn_pid := pid
|}.

(** Two listeners on port 80, one on port 22, a UDP socket, and a connection
    whose fields cannot be read. *)
Definition connections : list (result Network.sconn) :=
  [ Ok (conn "SocketKind.SOCK_STREAM" (Some ("0.0.0.0", 80%Z)) "LISTEN" (Some 7%Z));
    Ok (conn "SocketKind.SOCK_DGRAM" (Some ("0.0.0.0", 53%Z)) "NONE" None);
    Raise AttributeError;
    Ok (conn "SocketKind.SOCK_STREAM" (Some ("::", 80%Z)) "LISTEN" (Some 8%Z));
    Ok (conn "SocketKind.SOCK_STREAM" (Some ("0.0.0.0", 22%Z)) "LISTEN" (Some 9%Z)) ].

(** A socket in the LISTEN state whose local address is the empty tuple. *)
Definition unbound_listener : Network.sconn :=
  conn "SocketKind.SOCK_STREAM" None "LISTEN" (Some 7%Z).

End Samples.

Module LoggerSpec.
Import Logger.

Definition is_letter (small capital c : ascii) : bool :=
  Ascii.eqb c small || Ascii.eqb c capital.

(** The format is the word "json" in any mix of capital and small letters. *)
Definition json_ignoring_case (format : string) : bool :=
  match format with
  | String c1 (String c2 (String c3 (String c4 EmptyString))) =>
      is_letter "j" "J" c1 && is_letter "s" "S" c2 &&
      is_letter "o" "O" c3 && is_letter "n" "N" c4
  | _ => false
  end.

(** A renderer for documents that are handed over already rendered. *)
Definition verbatim (e : enhanced_data string) : string := data e.

Definition slash (dir file : string) : string := dir +:+ "/" +:+ file.

Definition this_host : platform_probe := {|
  node := "host";
  system := "Linux";
  release := "6.1";
  version := "#1";
  machine := "x86_64";
  processor_name := ""
|}.

Definition json_logger : HealthLogger :=
  {| output_dir := "out"; format := "json" |}.

End LoggerSpec.

Module MetricsSpec.
Import Metrics.

(** The last partition mounted at [m] whose usage could be read, with that
    usage. *)
Fixpoint last_answer (m : string) (partitions : partitions_probe)
    : option (sdiskpart * sdiskusage) :=
  match partitions with
  | [] => None
  | (partition, r) :: rest =>
      match last_answer m rest with
      | Some found => Some found
      | None =>
          match r with
          | Ok usage =>
              if String.eqb (part_mountpoint partition) m
              then Some (partition, usage)
              else None
          | Raise _ => None
          end
      end
  end.

Definition part (device mountpoint : string) : sdiskpart :=
  {| part_device := device; part_mountpoint := mountpoint;
     part_fstype := "ext4" |}.

Definition usage (total used : Z) : sdiskusage :=
  {| du_total := total; du_used := used; du_free := total - used;
     du_percent := 100 * inject_Z used / inject_Z total |}.

(** The root is listed twice, a BIOS partition may not be read. *)
Definition sample_partitions : partitions_probe :=
  [ (part "/dev/sda1" "/", Ok (usage (64 * 1024 ^ 3) (16 * 1024 ^ 3)));
    (part "/dev/sda2" "/boot", Raise OSError);
    (part "/dev/sdb1" "/", Ok (usage (8 * 1024 ^ 3) (4 * 1024 ^ 3))) ].

Definition sample_memory : svmem :=
  {| vm_total := 16 * 1024 ^ 3; vm_available := 8 * 1024 ^ 3;
     vm_used := 8 * 1024 ^ 3; vm_percent := 50 |}.

Definition sample_swap : sswap :=
  {| sw_total := 0; sw_used := 0; sw_percent := 0 |}.

Definition sample_probe : metrics_probe := {|
  ask_cpu_percent := 12;
  ask_cpu_count_logical := Some 4%Z;
  ask_cpu_count_physical := None;
  ask_cpu_per_core := [10; 14; 12; 12]%Q;
  ask_virtual_memory := sample_memory;
  ask_swap_memory := sample_swap;
  ask_partitions := sample_partitions
|}.

End MetricsSpec.

Module InterfacesSpec.
Import Interfaces.

Definition addr (address : string) : snicaddr :=
  {| nic_family := "AddressFamily.AF_INET"; nic_address := address;
     nic_netmask := Some "255.0.0.0"; nic_broadcast := None |}.

Definition sample_addrs : list (string * list snicaddr) :=
  [ ("lo", [addr "127.0.0.1"; addr "::1"]); ("tun0", [addr "10.0.0.2"]) ].

(** Statistics for [lo] and for an interface without addresses. *)
Definition sample_stats : gmap string snicstats :=
  <["lo" := {| nic_isup := true; nic_speed := 0; nic_mtu := 65536 |}]>
    (<["eth9" := {| nic_isup := false; nic_speed := 1000; nic_mtu := 1500 |}]>
       ∅).

Definition sample_io : gmap string snetio :=
  <["lo" := {| bytes_sent := 10; bytes_recv := 10; packets_sent := 1;
               packets_recv := 1; errin := 0; errout := 0; dropin := 0;
               dropout := 0 |}]> ∅.

End InterfacesSpec.

Module CollectorSpec.
Import Collector.

(** The first line [run] prints after the data is collected. *)
Definition writing_line : string := nl +:+ "Writing results to log file...".

(** No failure of a single item is of a kind its loop lets through. *)
Definition items_handled (os : os_answers) : bool :=
  all_handled [OSError; OSError]
    (map snd (Metrics.ask_partitions (ask_metrics os))) &&
  all_handled [NoSuchProcess; AccessDenied] (ask_table_summary os) &&
  all_handled [NoSuchProcess; AccessDenied; ZombieProcess]
    (ask_table_memory os) &&
  all_handled [NoSuchProcess; AccessDenied; ZombieProcess]
    (ask_table_cpu os).

(** The connection list is given or refused with access-denied, and no
    connection fails in a way its loop lets through. *)
Definition connections_handled (probe : Network.connections_probe) : bool :=
  match probe with
  | Ok items => all_handled [AttributeError; AccessDenied] items
  | Raise e => handles [AccessDenied] e
  end.

Definition sample_os : os_answers := {|
  ask_metrics := MetricsSpec.sample_probe;
  ask_table_summary := Samples.table;
  ask_table_memory := Samples.table;
  ask_table_cpu := Samples.table;
  ask_connections_summary := Raise AccessDenied;
  ask_if_addrs := InterfacesSpec.sample_addrs;
  ask_if_stats := InterfacesSpec.sample_stats;
  ask_if_io_counters := InterfacesSpec.sample_io;
  ask_connections_all := Ok Samples.connections
|}.

(** As [sample_os], with a process table that cannot be read at all. *)
Definition broken_os : os_answers := {|
  ask_metrics := MetricsSpec.sample_probe;
  ask_table_summary := [Raise RuntimeError];
  ask_table_memory := Samples.table;
  ask_table_cpu := Samples.table;
  ask_connections_summary := Raise AccessDenied;
  ask_if_addrs := InterfacesSpec.sample_addrs;
  ask_if_stats := InterfacesSpec.sample_stats;
  ask_if_io_counters := InterfacesSpec.sample_io;
  ask_connections_all := Ok Samples.connections
|}.

Definition sample_collector : HealthCollector :=
  {| top_processes := 20; include_all_connections := true;
     logger := LoggerSpec.json_logger |}.

(** Renderers that only name the format; the properties of [run] hold for
    any renderers. *)
Definition as_json (e : Logger.enhanced_data health_data) : string := "json".
Definition as_text (e : Logger.enhanced_data health_data) : string := "text".

End CollectorSpec.

Module ProcessSamples.

(** A process whose name could not be read. *)
Definition nameless : Processes.pinfo := {|
  Processes.info_pid := 4;
  Processes.info_name := None;
  Processes.info_username := None;
  Processes.info_status := Some "zombie";
  Processes.info_cpu_percent := None;
  Processes.info_memory_percent := None;
  Processes.info_memory_info := None;
  Processes.info_num_threads := None;
  Processes.info_create_time := None
|}.

Definition table_with_nameless : Processes.process_table :=
  Samples.table ++ [Ok nameless].

End ProcessSamples.

(** * Properties *)

(** ** The result monad and exception handling *)

Lemma handles_process_errors e :
  handles [NoSuchProcess; AccessDenied; ZombieProcess] e = true ↔
  e = NoSuchProcess ∨ e = AccessDenied ∨ e = ZombieProcess.
Proof. destruct e; cbn; split; intros H; try discriminate; intuition congruence. Qed.

Lemma handles_zombie_as_no_such_process :
  handles [NoSuchProcess; AccessDenied] ZombieProcess = true.
Proof. reflexivity. Qed.

(** ** Slices *)

Lemma slice_to_nonneg {A} (l : list A) (n : Z) :
  (0 <= n)%Z → slice_to l n = firstn (Z.to_nat n) l.
Proof. intros Hn. unfold slice_to. destruct (Z.ltb_spec n 0); [lia | done]. Qed.

Lemma slice_to_neg {A} (l : list A) (n : Z) :
  (n < 0)%Z → slice_to l n = firstn (length l - Z.to_nat (- n)) l.
Proof.
  intros Hn. unfold slice_to. destruct (Z.ltb_spec n 0); [| lia].
  f_equal. lia.
Qed.

Lemma slice_to_length {A} (l : list A) (n : Z) :
  length (slice_to l n) =
  if (n <? 0)%Z then length l - Z.to_nat (- n)
  else Nat.min (Z.to_nat n) (length l).
Proof.
  unfold slice_to. destruct (Z.ltb_spec n 0); rewrite length_firstn; lia.
Qed.

(** ** Sums over dict values *)

Lemma sum_values_insert_fresh (d : gmap string nat) k v :
  d !! k = None → sum_values (<[k := v]> d) = v + sum_values d.
Proof.
  intros H. unfold sum_values.
  rewrite map_fold_insert_L; [done | intros; lia | done].
Qed.

Lemma sum_values_empty : sum_values ∅ = 0.
Proof. apply map_fold_empty. Qed.

Lemma sum_values_insert_present (d : gmap string nat) k n v :
  d !! k = Some n → sum_values (<[k := v]> d) + n = v + sum_values d.
Proof.
  intros H.
  rewrite <- (insert_delete_eq d k v).
  rewrite <- (insert_delete_id d k n H) at 2.
  rewrite !sum_values_insert_fresh by apply lookup_delete_eq. lia.
Qed.

(** ** Stable sorting *)
Section StableSortFacts.
Context {A K : Type} (leb : K → K → bool) (key : A → K).

Lemma stable_insert_perm x l : Permutation (stable_insert leb key x l) (x :: l).
Proof.
  induction l as [| y l IH]; cbn; [done |].
  destruct (leb (key x) (key y)); [done |].
  rewrite IH. apply perm_swap.
Qed.

Lemma stable_sort_perm l : Permutation (stable_sort leb key l) l.
Proof.
  induction l as [| x l IH]; cbn; [done |].
  rewrite stable_insert_perm. by constructor.
Qed.

Lemma py_sort_perm reverse l : Permutation (py_sort leb key reverse l) l.
Proof.
  destruct reverse; cbn; [| apply stable_sort_perm].
  rewrite <- Permutation_rev, stable_sort_perm. symmetry. apply Permutation_rev.
Qed.

Lemma py_sort_length reverse l : length (py_sort leb key reverse l) = length l.
Proof. apply Permutation_length, py_sort_perm. Qed.

Lemma py_sort_In reverse l x : In x (py_sort leb key reverse l) ↔ In x l.
Proof.
  split; apply Permutation_in; [| symmetry]; apply py_sort_perm.
Qed.

Hypothesis leb_total : ∀ a b, leb a b = false → leb b a = true.
Hypothesis leb_trans : ∀ a b c, leb a b = true → leb b c = true → leb a c = true.

Lemma leb_refl a : leb a a = true.
Proof.
  destruct (leb a a) eqn:E; [done |]. pose proof (leb_total _ _ E). congruence.
Qed.

Lemma stable_insert_sorted x l :
  StronglySorted (key_le leb key) l →
  StronglySorted (key_le leb key) (stable_insert leb key x l).
Proof.
  induction 1 as [| y l Hl IH Hy]; cbn.
  - repeat constructor.
  - destruct (leb (key x) (key y)) eqn:E.
    + constructor; [by constructor |].
      constructor; [done |].
      eapply Forall_impl; [exact Hy |].
      intros z Hz. unfold key_le in *. eauto.
    + constructor; [done |].
      eapply Permutation_Forall; [symmetry; apply stable_insert_perm |].
      constructor; [| done]. by apply leb_total.
Qed.

Lemma stable_sort_sorted l :
  StronglySorted (key_le leb key) (stable_sort leb key l).
Proof.
  induction l as [| x l IH]; cbn; [constructor |].
  by apply stable_insert_sorted.
Qed.

Lemma StronglySorted_snoc (R : A → A → Prop) l x :
  StronglySorted R l → Forall (λ y, R y x) l → StronglySorted R (l ++ [x]).
Proof.
  induction 1 as [| y l Hl IH Hy]; intros Hx; cbn.
  - repeat constructor.
  - inversion Hx; subst. constructor; [by apply IH |].
    apply Forall_app. split; [done | by repeat constructor].
Qed.

Lemma StronglySorted_rev_flip (R : A → A → Prop) l :
  StronglySorted R l → StronglySorted (λ x y, R y x) (rev l).
Proof.
  induction 1 as [| y l Hl IH Hy]; cbn; [constructor |].
  apply StronglySorted_snoc; [done |].
  apply List.Forall_forall. intros z Hz. apply In_rev in Hz.
  rewrite List.Forall_forall in Hy. by apply Hy.
Qed.

(** Sorting in reverse leaves the keys non-increasing. *)
Lemma py_sort_reverse_sorted l :
  StronglySorted (λ x y, key_le leb key y x) (py_sort leb key true l).
Proof. cbn. apply StronglySorted_rev_flip, stable_sort_sorted. Qed.

Lemma py_sort_forward_sorted l :
  StronglySorted (key_le leb key) (py_sort leb key false l).
Proof. cbn. apply stable_sort_sorted. Qed.

(** Stability: the records of one key keep their relative order. *)
Lemma stable_insert_same_key k x l :
  List.filter (same_key leb key k) (stable_insert leb key x l) =
  List.filter (same_key leb key k) (x :: l).
Proof.
  induction l as [| y l IH]; [done |].
  cbn [stable_insert]. destruct (leb (key x) (key y)) eqn:E; [done |].
  cbn [List.filter] in *. rewrite IH.
  destruct (same_key leb key k x) eqn:Ex, (same_key leb key k y) eqn:Ey;
    try done.
  unfold same_key in Ex, Ey.
  apply andb_prop in Ex as [Hx _]. apply andb_prop in Ey as [_ Hy].
  rewrite (leb_trans _ _ _ Hx Hy) in E. discriminate.
Qed.

Lemma stable_sort_same_key k l :
  List.filter (same_key leb key k) (stable_sort leb key l) =
  List.filter (same_key leb key k) l.
Proof.
  induction l as [| x l IH]; [done |].
  cbn [stable_sort foldr]. rewrite stable_insert_same_key.
  cbn [List.filter]. fold (stable_sort leb key l). by rewrite IH.
Qed.

Lemma py_sort_same_key k reverse l :
  List.filter (same_key leb key k) (py_sort leb key reverse l) =
  List.filter (same_key leb key k) l.
Proof.
  destruct reverse; cbn; [| apply stable_sort_same_key].
  by rewrite List.filter_rev, stable_sort_same_key, List.filter_rev, rev_involutive.
Qed.

Lemma StronglySorted_firstn (R : A → A → Prop) n l :
  StronglySorted R l → StronglySorted R (firstn n l).
Proof.
  intros H. revert n. induction H as [| y l Hl IH Hy]; intros [| n]; cbn;
    try constructor; [apply IH |].
  rewrite List.Forall_forall in *. intros z Hz. apply Hy.
  rewrite <- (firstn_skipn n l). apply in_or_app. by left.
Qed.

End StableSortFacts.

(** ** Orders on the sort keys *)

Lemma Qle_bool_total (a b : Q) : Qle_bool a b = false → Qle_bool b a = true.
Proof.
  intros H. apply Qle_bool_iff.
  destruct (Qlt_le_dec b a) as [Hlt | Hle]; [by apply Qlt_le_weak |].
  apply Qle_bool_iff in Hle. congruence.
Qed.

Lemma Qle_bool_trans (a b c : Q) :
  Qle_bool a b = true → Qle_bool b c = true → Qle_bool a c = true.
Proof. rewrite !Qle_bool_iff. apply Qle_trans. Qed.

Lemma Zleb_total (a b : Z) : (a <=? b)%Z = false → (b <=? a)%Z = true.
Proof. lia. Qed.

Lemma Zleb_trans (a b c : Z) :
  (a <=? b)%Z = true → (b <=? c)%Z = true → (a <=? c)%Z = true.
Proof. lia. Qed.

Lemma StronglySorted_impl {A} (R S : A → A → Prop) (l : list A) :
  (∀ x y, R x y → S x y) → StronglySorted R l → StronglySorted S l.
Proof.
  intros HRS. induction 1 as [| x l Hl IH Hx]; constructor; [done |].
  eapply Forall_impl; [exact Hx | auto].
Qed.

Lemma py_sort_non_increasing {A} (field : A → Q) (l : list A) :
  non_increasing field (py_sort Qle_bool field true l).
Proof.
  eapply StronglySorted_impl;
    [| apply (py_sort_reverse_sorted Qle_bool field Qle_bool_total Qle_bool_trans)].
  intros x y H. by apply Qle_bool_iff.
Qed.

Lemma py_sort_non_decreasing {A} (field : A → Z) (l : list A) :
  non_decreasing field (py_sort Z.leb field false l).
Proof.
  eapply StronglySorted_impl;
    [| apply (py_sort_forward_sorted Z.leb field Zleb_total Zleb_trans)].
  intros x y H. unfold key_le in H. lia.
Qed.

Lemma non_increasing_firstn {A} (field : A → Q) n (l : list A) :
  non_increasing field l → non_increasing field (firstn n l).
Proof. apply StronglySorted_firstn. Qed.

Lemma non_increasing_slice_to {A} (field : A → Q) n (l : list A) :
  non_increasing field l → non_increasing field (slice_to l n).
Proof. unfold slice_to. destruct (n <? 0)%Z; apply non_increasing_firstn. Qed.

(** ** processes.py: enumeration, ranking and truncation *)
Module ProcessFacts.
Import Processes ProcessSpec.

Lemma answered_app {A} (l1 l2 : list (result A)) :
  answered (l1 ++ l2) = answered l1 ++ answered l2.
Proof.
  induction l1 as [| [a | e] l1 IH]; cbn; [done | by rewrite IH | done].
Qed.

Lemma survivors_length_le table : length (survivors table) ≤ length table.
Proof.
  unfold survivors. rewrite length_map.
  induction table as [| [a | e] table IH]; cbn; lia.
Qed.

(** When every failing process raises one of the three handled errors, the
    loop ends normally with the records of the others, in table order. *)
Lemma enumerate_loop_handled table processes :
  all_handled [NoSuchProcess; AccessDenied; ZombieProcess] table = true →
  enumerate_loop processes table = Ok (processes ++ survivors table).
Proof.
  revert processes. induction table as [| [pi | e] table IH]; intros acc H.
  - cbn. by rewrite app_nil_r.
  - cbn in H. cbn [enumerate_loop]. rewrite IH by done.
    unfold survivors. cbn. by rewrite <- app_assoc.
  - cbn [all_handled forallb] in H. apply andb_prop in H as [He H].
    cbn [enumerate_loop]. rewrite He. by apply IH.
Qed.

(** An error that is not handled leaves the loop at the first such process. *)
Lemma enumerate_loop_unhandled table1 e table2 processes :
  all_handled [NoSuchProcess; AccessDenied; ZombieProcess] table1 = true →
  handles [NoSuchProcess; AccessDenied; ZombieProcess] e = false →
  enumerate_loop processes (table1 ++ Raise e :: table2) = Raise e.
Proof.
  revert processes. induction table1 as [| [pi | e1] table1 IH]; intros acc H He.
  - cbn [app enumerate_loop]. by rewrite He.
  - cbn in H. cbn [app enumerate_loop]. by apply IH.
  - cbn [all_handled forallb] in H. apply andb_prop in H as [He1 H].
    cbn [app enumerate_loop]. rewrite He1. by apply IH.
Qed.

Lemma enumerate_processes_handled table sort_by limit :
  all_handled [NoSuchProcess; AccessDenied; ZombieProcess] table = true →
  enumerate_processes table sort_by limit =
  (processes ← sort_processes sort_by (survivors table);
   Ok (apply_limit limit processes)).
Proof.
  intros H. unfold enumerate_processes.
  by rewrite enumerate_loop_handled.
Qed.

Lemma sort_processes_memory processes :
  sort_processes "memory" processes =
  Ok (py_sort Qle_bool memory_percent true processes).
Proof. reflexivity. Qed.

Lemma sort_processes_cpu processes :
  sort_processes "cpu" processes =
  Ok (py_sort Qle_bool cpu_percent true processes).
Proof. reflexivity. Qed.

Lemma sort_processes_pid processes :
  sort_processes "pid" processes = Ok (py_sort Z.leb pid false processes).
Proof. reflexivity. Qed.

(** Sorting, when it succeeds, rearranges the records and loses none. *)
Lemma sort_processes_perm sort_by processes sorted :
  sort_processes sort_by processes = Ok sorted → Permutation sorted processes.
Proof.
  unfold sort_processes.
  repeat case_match; intros Heq; try discriminate; injection Heq as <-;
    first [ apply (py_sort_perm _ _ true)
          | apply (py_sort_perm _ _ false)
          | reflexivity ].
Qed.

Lemma sort_processes_length sort_by processes sorted :
  sort_processes sort_by processes = Ok sorted →
  length sorted = length processes.
Proof. intros H. by apply Permutation_length, (sort_processes_perm sort_by). Qed.

(** Only the order by name can fail, and only on a name that is [None]. *)
Lemma sort_processes_total sort_by processes :
  sort_by ≠ "name" → ∃ sorted, sort_processes sort_by processes = Ok sorted.
Proof.
  intros Hne. unfold sort_processes.
  destruct (String.eqb_spec sort_by "name"); [done |].
  repeat case_match; eauto.
Qed.

Lemma apply_limit_positive n processes :
  (0 < n)%Z → apply_limit (Some n) processes = firstn (Z.to_nat n) processes.
Proof.
  intros Hn. unfold apply_limit. destruct (Z.eqb_spec n 0); [lia |].
  by apply slice_to_nonneg; lia.
Qed.

Lemma apply_limit_negative n processes :
  (n < 0)%Z →
  apply_limit (Some n) processes =
  firstn (length processes - Z.to_nat (- n)) processes.
Proof.
  intros Hn. unfold apply_limit. destruct (Z.eqb_spec n 0); [lia |].
  by apply slice_to_neg.
Qed.

Lemma apply_limit_zero processes : apply_limit (Some 0%Z) processes = processes.
Proof. reflexivity. Qed.

Lemma apply_limit_none processes : apply_limit None processes = processes.
Proof. reflexivity. Qed.

Lemma apply_limit_non_increasing field limit processes :
  non_increasing field processes →
  non_increasing field (apply_limit limit processes).
Proof.
  intros H. destruct limit as [n |]; cbn; [| done].
  destruct (n =? 0)%Z; [done |]. by apply non_increasing_slice_to.
Qed.

(** Whatever the limit, the list ranked by memory is non-increasing in
    [memory_percent], and the one ranked by CPU in [cpu_percent]. *)
Lemma ranking_by_memory_sorted table limit :
  all_handled [NoSuchProcess; AccessDenied; ZombieProcess] table = true →
  ∃ ranking,
    enumerate_processes table "memory" limit = Ok ranking ∧
    non_increasing memory_percent ranking.
Proof.
  intros H. rewrite enumerate_processes_handled by done.
  rewrite sort_processes_memory. eexists; split; [reflexivity |].
  apply apply_limit_non_increasing, py_sort_non_increasing.
Qed.

Lemma ranking_by_cpu_sorted table limit :
  all_handled [NoSuchProcess; AccessDenied; ZombieProcess] table = true →
  ∃ ranking,
    enumerate_processes table "cpu" limit = Ok ranking ∧
    non_increasing cpu_percent ranking.
Proof.
  intros H. rewrite enumerate_processes_handled by done.
  rewrite sort_processes_cpu. eexists; split; [reflexivity |].
  apply apply_limit_non_increasing, py_sort_non_increasing.
Qed.

(** A positive limit keeps the first [n] records of the sorted list, so the
    ranking has [min n count] entries. *)
Lemma ranking_positive_limit table sort_by n sorted :
  all_handled [NoSuchProcess; AccessDenied; ZombieProcess] table = true →
  sort_processes sort_by (survivors table) = Ok sorted →
  (0 < n)%Z →
  enumerate_processes table sort_by (Some n) = Ok (firstn (Z.to_nat n) sorted) ∧
  length (firstn (Z.to_nat n) sorted) =
    Nat.min (Z.to_nat n) (length (survivors table)).
Proof.
  intros H Hs Hn. rewrite enumerate_processes_handled by done.
  rewrite Hs. unfold mbind, result_bind.
  rewrite apply_limit_positive by done. split; [done |].
  by rewrite length_firstn, (sort_processes_length _ _ _ Hs).
Qed.

(** Without a limit the whole sorted list is returned. *)
Lemma ranking_no_limit table sort_by sorted :
  all_handled [NoSuchProcess; AccessDenied; ZombieProcess] table = true →
  sort_processes sort_by (survivors table) = Ok sorted →
  enumerate_processes table sort_by None = Ok sorted ∧
  Permutation sorted (survivors table).
Proof.
  intros H Hs. rewrite enumerate_processes_handled by done.
  rewrite Hs. split; [done |]. by apply (sort_processes_perm sort_by).
Qed.

(** Records with equal [memory_percent] keep their table order. *)
Lemma ranking_by_memory_stable table k :
  all_handled [NoSuchProcess; AccessDenied; ZombieProcess] table = true →
  ∃ ranking,
    enumerate_processes table "memory" None = Ok ranking ∧
    List.filter (same_key Qle_bool memory_percent k) ranking =
    List.filter (same_key Qle_bool memory_percent k) (survivors table).
Proof.
  intros H. rewrite enumerate_processes_handled by done.
  rewrite sort_processes_memory. eexists; split; [reflexivity |].
  apply (py_sort_same_key Qle_bool memory_percent Qle_bool_trans k true).
Qed.

End ProcessFacts.

(** ** processes.py: the status summary *)
Module SummaryFacts.
Import Processes ProcessSpec.

Lemma in_status_buckets (s : string) :
  existsb (String.eqb s) status_buckets = true ↔ s ∈ status_buckets.
Proof.
  rewrite existsb_exists, list_elem_of_In. split.
  - intros (b & Hb & Heq). apply String.eqb_eq in Heq. by subst.
  - intros H. exists s. split; [done | apply String.eqb_refl].
Qed.

Lemma bucket_of_in_buckets status : bucket_of status ∈ status_buckets.
Proof.
  destruct status as [s |]; cbn [bucket_of]; [| set_solver].
  destruct (existsb (String.eqb s) status_buckets) eqn:E; [| set_solver].
  by apply in_status_buckets.
Qed.

Lemma initial_has_buckets : has_buckets initial_status_count.
Proof.
  intros k. unfold initial_status_count, status_buckets.
  rewrite !elem_of_cons, elem_of_nil. split.
  - intros [n Hn].
    repeat (rewrite lookup_insert in Hn; case_decide; [by auto 10 |]).
    by rewrite lookup_empty in Hn.
  - intros [-> | [-> | [-> | [-> | [-> | []]]]]]; by simplify_map_eq.
Qed.

(** One process adds one to the bucket of its status and to no other. *)
Lemma count_status_alter status_count status :
  has_buckets status_count →
  count_status status_count status = alter S (bucket_of status) status_count.
Proof.
  intros Hb. destruct status as [s |]; cbn [count_status bucket_of]; [| done].
  destruct (status_count !! s) eqn:E.
  - assert (s ∈ status_buckets) as Hs by (apply Hb; eauto).
    apply in_status_buckets in Hs. by rewrite Hs.
  - destruct (existsb (String.eqb s) status_buckets) eqn:Hs; [| done].
    apply in_status_buckets, Hb in Hs. rewrite E in Hs. by destruct Hs.
Qed.

Lemma count_status_has_buckets status_count status :
  has_buckets status_count → has_buckets (count_status status_count status).
Proof.
  intros Hb. rewrite count_status_alter by done. intros k.
  etrans; [| apply Hb]. unfold is_Some. rewrite lookup_alter.
  case_decide; subst; [| done].
  destruct (status_count !! bucket_of status); cbn; naive_solver.
Qed.

Lemma count_status_lookup status_count status b :
  has_buckets status_count →
  count_status status_count status !! b =
  (λ n, n + (if String.eqb (bucket_of status) b then 1 else 0)) <$>
    status_count !! b.
Proof.
  intros Hb. rewrite count_status_alter by done. rewrite lookup_alter.
  destruct (String.eqb_spec (bucket_of status) b) as [-> | Hne].
  - rewrite decide_True by done.
    destruct (status_count !! b); cbn; f_equal; lia.
  - rewrite decide_False by done.
    destruct (status_count !! b); cbn; f_equal; lia.
Qed.

(** When every failing process raises a handled error, the loop ends
    normally and has counted each answering process once. *)
Lemma summary_loop_handled table status_count :
  all_handled [NoSuchProcess; AccessDenied] table = true →
  summary_loop status_count table =
  Ok (foldl count_status status_count (map info_status (answered table))).
Proof.
  revert status_count.
  induction table as [| [pi | e] table IH]; intros sc H; [done | |].
  - cbn in H. cbn [summary_loop answered map foldl]. by apply IH.
  - cbn [all_handled forallb] in H. apply andb_prop in H as [He H].
    cbn [summary_loop answered]. rewrite He. by apply IH.
Qed.

Lemma foldl_count_status_has_buckets statuses status_count :
  has_buckets status_count →
  has_buckets (foldl count_status status_count statuses).
Proof.
  revert status_count. induction statuses as [| st statuses IH]; intros sc H;
    [done |].
  cbn. by apply IH, count_status_has_buckets.
Qed.

Lemma foldl_count_status_lookup infos status_count b :
  has_buckets status_count →
  foldl count_status status_count (map info_status infos) !! b =
  (λ n, n + bucket_count b infos) <$> status_count !! b.
Proof.
  revert status_count. induction infos as [| pi infos IH]; intros sc H.
  - cbn. destruct (sc !! b); cbn; f_equal; lia.
  - cbn [map foldl]. rewrite IH by by apply count_status_has_buckets.
    rewrite count_status_lookup by done.
    unfold bucket_count. cbn [List.filter].
    destruct (sc !! b); cbn; [| done]. f_equal.
    destruct (String.eqb (bucket_of (info_status pi)) b); cbn; lia.
Qed.

(** A dict with exactly the five buckets is determined by their counts, and
    its values add up to the sum of the five. *)
Lemma has_buckets_sum status_count :
  has_buckets status_count →
  sum_values status_count =
  default 0 (status_count !! "running") +
  default 0 (status_count !! "sleeping") +
  default 0 (status_count !! "stopped") +
  default 0 (status_count !! "zombie") +
  default 0 (status_count !! "other").
Proof.
  intros Hb.
  assert (∀ b, b ∈ status_buckets → ∃ n, status_count !! b = Some n) as Hin.
  { intros b Hin. by apply Hb. }
  destruct (Hin "running") as [n1 H1]; [set_solver |].
  destruct (Hin "sleeping") as [n2 H2]; [set_solver |].
  destruct (Hin "stopped") as [n3 H3]; [set_solver |].
  destruct (Hin "zombie") as [n4 H4]; [set_solver |].
  destruct (Hin "other") as [n5 H5]; [set_solver |].
  assert (status_count =
          <["running" := n1]> (<["sleeping" := n2]> (<["stopped" := n3]>
            (<["zombie" := n4]> (<["other" := n5]> ∅))))) as Heq.
  { apply map_eq. intros k.
    destruct (decide (k = "running")) as [-> | ?]; [by simplify_map_eq |].
    destruct (decide (k = "sleeping")) as [-> | ?]; [by simplify_map_eq |].
    destruct (decide (k = "stopped")) as [-> | ?]; [by simplify_map_eq |].
    destruct (decide (k = "zombie")) as [-> | ?]; [by simplify_map_eq |].
    destruct (decide (k = "other")) as [-> | ?]; [by simplify_map_eq |].
    simplify_map_eq. apply eq_None_not_Some. intros Hk. apply Hb in Hk.
    unfold status_buckets in Hk. set_solver. }
  rewrite H1, H2, H3, H4, H5. cbn [default]. rewrite Heq.
  rewrite !sum_values_insert_fresh by by simplify_map_eq.
  rewrite sum_values_empty. unfold id. lia.
Qed.

(** Every answering process falls into exactly one of the five buckets. *)
Lemma bucket_counts_partition infos :
  bucket_count "running" infos + bucket_count "sleeping" infos +
  bucket_count "stopped" infos + bucket_count "zombie" infos +
  bucket_count "other" infos = length infos.
Proof.
  unfold bucket_count. induction infos as [| pi infos IH]; [done |].
  cbn [List.filter length].
  pose proof (bucket_of_in_buckets (info_status pi)) as Hin.
  unfold status_buckets in Hin.
  rewrite !elem_of_cons, elem_of_nil in Hin.
  destruct Hin as [-> | [-> | [-> | [-> | [-> | []]]]]]; cbn; lia.
Qed.

End SummaryFacts.

(** ** processes.py: the properties of the collector *)
Module ProcessProperties.
Import Processes ProcessSpec ProcessFacts SummaryFacts.

Lemma get_process_summary_handled table :
  all_handled [NoSuchProcess; AccessDenied] table = true →
  ∃ status_count,
    has_buckets status_count ∧
    (∀ b, b ∈ status_buckets →
       status_count !! b = Some (bucket_count b (answered table))) ∧
    get_process_summary table =
      Ok (status_count ∪
          {["total_processes" := length (answered table)]}).
Proof.
  intros H. unfold get_process_summary.
  rewrite summary_loop_handled by done.
  set (sc := foldl count_status _ _).
  assert (has_buckets sc) as Hb
    by apply foldl_count_status_has_buckets, initial_has_buckets.
  assert (∀ b, b ∈ status_buckets →
               sc !! b = Some (bucket_count b (answered table))) as Hl.
  { intros b Hin. unfold sc.
    rewrite foldl_count_status_lookup by apply initial_has_buckets.
    unfold status_buckets in Hin. rewrite !elem_of_cons, elem_of_nil in Hin.
    destruct Hin as [-> | [-> | [-> | [-> | [-> | []]]]]]; reflexivity. }
  exists sc. split; [done |]. split; [done |].
  unfold mbind, result_bind. do 3 f_equal.
  rewrite has_buckets_sum by done.
  rewrite !Hl by (unfold status_buckets; set_solver).
  cbn [default]. unfold id. apply bucket_counts_partition.
Qed.

(** C4.  When every process that fails to answer raises an error the summary
    loop handles, the summary is produced; each answering process is counted
    in the bucket named by its status, or in "other" when the status names no
    bucket, and in no other bucket; the five buckets add up to
    "total_processes", which is the number of processes that answered. *)
Theorem status_summary_exhaustive table :
  all_handled [NoSuchProcess; AccessDenied] table = true →
  ∃ s,
    get_process_summary table = Ok s ∧
    (∀ b, b ∈ status_buckets →
       s !! b = Some (bucket_count b (answered table))) ∧
    (∀ status,
       bucket_of status ∈ status_buckets ∧
       (status = Some (bucket_of status) ∨ bucket_of status = "other")) ∧
    s !! "total_processes" = Some (length (answered table)) ∧
    bucket_count "running" (answered table) +
    bucket_count "sleeping" (answered table) +
    bucket_count "stopped" (answered table) +
    bucket_count "zombie" (answered table) +
    bucket_count "other" (answered table) = length (answered table).
Proof.
  intros H.
  destruct (get_process_summary_handled table H) as (sc & Hb & Hl & Heq).
  eexists. split; [exact Heq |]. split; [| split; [| split]].
  - intros b Hin. apply lookup_union_Some_l. by apply Hl.
  - intros st. split; [apply bucket_of_in_buckets |].
    destruct st as [s |]; [| by right]. cbn [bucket_of].
    destruct (existsb (String.eqb s) status_buckets); auto.
  - rewrite lookup_union_r; [by simplify_map_eq |].
    apply eq_None_not_Some. intros Hk. apply Hb in Hk.
    unfold status_buckets in Hk. set_solver.
  - apply bucket_counts_partition.
Qed.

Lemma status_summary_exhaustive_witness :
  all_handled [NoSuchProcess; AccessDenied] Samples.table = true ∧
  ∃ s,
    get_process_summary Samples.table = Ok s ∧
    (∀ b, b ∈ status_buckets →
       s !! b = Some (bucket_count b (answered Samples.table))) ∧
    (∀ status,
       bucket_of status ∈ status_buckets ∧
       (status = Some (bucket_of status) ∨ bucket_of status = "other")) ∧
    s !! "total_processes" = Some (length (answered Samples.table)) ∧
    bucket_count "running" (answered Samples.table) +
    bucket_count "sleeping" (answered Samples.table) +
    bucket_count "stopped" (answered Samples.table) +
    bucket_count "zombie" (answered Samples.table) +
    bucket_count "other" (answered Samples.table) =
      length (answered Samples.table).
Proof.
  split; [reflexivity |].
  apply (status_summary_exhaustive Samples.table). reflexivity.
Defined.

Lemma enumerate_negative_limit table sort_by L sorted :
  all_handled [NoSuchProcess; AccessDenied; ZombieProcess] table = true →
  sort_processes sort_by (survivors table) = Ok sorted →
  (L < 0)%Z →
  enumerate_processes table sort_by (Some L) =
    Ok (firstn (length sorted - Z.to_nat (Z.abs L)) sorted) ∧
  length (firstn (length sorted - Z.to_nat (Z.abs L)) sorted) =
    length (survivors table) - Z.to_nat (Z.abs L).
Proof.
  intros H Hs HL. pose proof (sort_processes_length _ _ _ Hs) as Hlen.
  rewrite enumerate_processes_handled by done. rewrite Hs.
  unfold mbind, result_bind. rewrite apply_limit_negative by done.
  replace (Z.abs L) with (- L)%Z by lia.
  split; [done |]. rewrite length_firstn, Hlen. lia.
Qed.

(** C8.  With a negative limit [L] the call does not fail because of the
    limit: it returns the sorted list without its last [|L|] records, which
    has [max 0 (count - |L|)] entries and, when any process survived, is
    shorter than the full list. *)
Theorem negative_limit_drops_tail table sort_by L sorted :
  all_handled [NoSuchProcess; AccessDenied; ZombieProcess] table = true →
  sort_processes sort_by (survivors table) = Ok sorted →
  (L < 0)%Z →
  enumerate_processes table sort_by (Some L) =
    Ok (firstn (length sorted - Z.to_nat (Z.abs L)) sorted) ∧
  length (firstn (length sorted - Z.to_nat (Z.abs L)) sorted) =
    Z.to_nat (Z.max 0 (Z.of_nat (length (survivors table)) - Z.abs L)) ∧
  (survivors table ≠ [] →
   length (firstn (length sorted - Z.to_nat (Z.abs L)) sorted) <
     length (survivors table)).
Proof.
  intros H Hs HL.
  destruct (enumerate_negative_limit table sort_by L sorted H Hs HL)
    as [Heq Hlen].
  split; [done |]. rewrite Hlen. split; [lia |].
  intros Hne. destruct (survivors table); [done | cbn; lia].
Qed.

Lemma negative_limit_drops_tail_witness :
  all_handled [NoSuchProcess; AccessDenied; ZombieProcess] Samples.table = true ∧
  sort_processes "cpu" (survivors Samples.table) =
    Ok (py_sort Qle_bool cpu_percent true (survivors Samples.table)) ∧
  (-2 < 0)%Z ∧
  enumerate_processes Samples.table "cpu" (Some (-2)%Z) =
    Ok (firstn
          (length (py_sort Qle_bool cpu_percent true (survivors Samples.table))
           - Z.to_nat (Z.abs (-2)))
          (py_sort Qle_bool cpu_percent true (survivors Samples.table))) ∧
  length
    (firstn
       (length (py_sort Qle_bool cpu_percent true (survivors Samples.table))
        - Z.to_nat (Z.abs (-2)))
       (py_sort Qle_bool cpu_percent true (survivors Samples.table))) =
    Z.to_nat (Z.max 0 (Z.of_nat (length (survivors Samples.table)) - Z.abs (-2))) ∧
  (survivors Samples.table ≠ [] →
   length
     (firstn
        (length (py_sort Qle_bool cpu_percent true (survivors Samples.table))
         - Z.to_nat (Z.abs (-2)))
        (py_sort Qle_bool cpu_percent true (survivors Samples.table))) <
     length (survivors Samples.table)).
Proof.
  split; [reflexivity |]. split; [reflexivity |]. split; [lia |].
  apply (negative_limit_drops_tail Samples.table "cpu" (-2)%Z
           (py_sort Qle_bool cpu_percent true (survivors Samples.table)));
    [reflexivity | reflexivity | lia].
Defined.

(** A caller of [collect_process_info] with a negative [top_n] gets two
    rankings of [count - |top_n|] records each. *)
Lemma collect_process_info_negative table_summary table_memory table_cpu top_n :
  all_handled [NoSuchProcess; AccessDenied] table_summary = true →
  all_handled [NoSuchProcess; AccessDenied; ZombieProcess] table_memory = true →
  all_handled [NoSuchProcess; AccessDenied; ZombieProcess] table_cpu = true →
  (top_n < 0)%Z →
  ∃ info,
    collect_process_info table_summary table_memory table_cpu top_n = Ok info ∧
    length (top_processes_by_memory info) =
      length (survivors table_memory) - Z.to_nat (Z.abs top_n) ∧
    length (top_processes_by_cpu info) =
      length (survivors table_cpu) - Z.to_nat (Z.abs top_n).
Proof.
  intros Hs Hm Hc Hn. unfold collect_process_info.
  destruct (get_process_summary_handled _ Hs) as (sc & _ & _ & ->).
  destruct (enumerate_negative_limit table_memory "memory" top_n _ Hm
              (sort_processes_memory _) Hn) as (-> & Hlm).
  destruct (enumerate_negative_limit table_cpu "cpu" top_n _ Hc
              (sort_processes_cpu _) Hn) as (-> & Hlc).
  eexists. split; [reflexivity |].
  cbn [top_processes_by_memory top_processes_by_cpu]. by rewrite Hlm, Hlc.
Qed.

End ProcessProperties.

(** ** processes.py: the limit 0 *)
Module ZeroLimit.
Import Processes ProcessSpec ProcessFacts SummaryFacts ProcessProperties.

(** [if limit:] is false for 0 as it is for [None]: the list is not cut. *)
Lemma enumerate_zero_limit table sort_by :
  enumerate_processes table sort_by (Some 0%Z) =
  enumerate_processes table sort_by None.
Proof. reflexivity. Qed.

(** For a positive [top_n] both rankings have [min top_n count] entries and
    the summary is the one of the summary pass. *)
Lemma collect_process_info_positive table_summary table_memory table_cpu top_n :
  all_handled [NoSuchProcess; AccessDenied] table_summary = true →
  all_handled [NoSuchProcess; AccessDenied; ZombieProcess] table_memory = true →
  all_handled [NoSuchProcess; AccessDenied; ZombieProcess] table_cpu = true →
  (0 < top_n)%Z →
  ∃ info,
    collect_process_info table_summary table_memory table_cpu top_n = Ok info ∧
    get_process_summary table_summary = Ok (summary info) ∧
    length (top_processes_by_memory info) =
      Nat.min (Z.to_nat top_n) (length (survivors table_memory)) ∧
    length (top_processes_by_cpu info) =
      Nat.min (Z.to_nat top_n) (length (survivors table_cpu)).
Proof.
  intros Hs Hm Hc Hn. unfold collect_process_info.
  destruct (get_process_summary_handled _ Hs) as (sc & _ & _ & ->).
  destruct (ranking_positive_limit table_memory "memory" top_n _ Hm
              (sort_processes_memory _) Hn) as (-> & Hlm).
  destruct (ranking_positive_limit table_cpu "cpu" top_n _ Hc
              (sort_processes_cpu _) Hn) as (-> & Hlc).
  eexists. split; [reflexivity |]. split; [reflexivity |].
  cbn [top_processes_by_memory top_processes_by_cpu]. by rewrite Hlm, Hlc.
Qed.

(** With [top_n = 0] both rankings are the full sorted lists. *)
Lemma collect_process_info_zero table_summary table_memory table_cpu :
  all_handled [NoSuchProcess; AccessDenied] table_summary = true →
  all_handled [NoSuchProcess; AccessDenied; ZombieProcess] table_memory = true →
  all_handled [NoSuchProcess; AccessDenied; ZombieProcess] table_cpu = true →
  ∃ info,
    collect_process_info table_summary table_memory table_cpu 0 = Ok info ∧
    length (top_processes_by_memory info) = length (survivors table_memory) ∧
    length (top_processes_by_cpu info) = length (survivors table_cpu).
Proof.
  intros Hs Hm Hc. unfold collect_process_info.
  destruct (get_process_summary_handled _ Hs) as (sc & _ & _ & ->).
  rewrite !enumerate_processes_handled by done.
  rewrite sort_processes_memory, sort_processes_cpu.
  eexists. split; [reflexivity |].
  cbn [top_processes_by_memory top_processes_by_cpu].
  by rewrite !apply_limit_zero, !py_sort_length.
Qed.

(** C1.  On a table of which three processes answer,
    [collect_process_info] with [top_n = 0] returns two rankings of three
    records each, not of [min 0 3 = 0]; the summary counts the three. *)
Theorem collect_process_info_zero_keeps_all :
  ∃ info,
    collect_process_info Samples.table Samples.table Samples.table 0 = Ok info ∧
    length (survivors Samples.table) = 3 ∧
    map pid (top_processes_by_memory info) = [2; 1; 3]%Z ∧
    map pid (top_processes_by_cpu info) = [3; 1; 2]%Z ∧
    summary info !! "total_processes" = Some 3.
Proof.
  eexists. split; [reflexivity |]. repeat split; vm_compute; reflexivity.
Qed.

(** C5.  On the same table [enumerate_processes] with limit 0 returns, for
    either key, all three records in non-increasing order of the key: the
    list is sorted but not cut to 0 records. *)
Theorem enumerate_zero_limit_not_truncated :
  map pid <$> enumerate_processes Samples.table "memory" (Some 0%Z) =
    Ok [2; 1; 3]%Z ∧
  map pid <$> enumerate_processes Samples.table "cpu" (Some 0%Z) =
    Ok [3; 1; 2]%Z.
Proof. split; vm_compute; reflexivity. Qed.

End ZeroLimit.

(** ** network.py: enumeration of the connections *)
Module NetworkFacts.
Import Network NetworkSpec.

Lemma connections_loop_handled items connections :
  all_handled [AttributeError; AccessDenied] items = true →
  connections_loop connections items =
  (connections ++ map make_connection (answered items), None).
Proof.
  revert connections.
  induction items as [| [conn | e] items IH]; intros acc H.
  - cbn. by rewrite app_nil_r.
  - cbn in H. cbn [connections_loop answered map]. rewrite IH by done.
    by rewrite <- app_assoc.
  - cbn [all_handled forallb] in H. apply andb_prop in H as [He H].
    cbn [connections_loop answered]. rewrite He. by apply IH.
Qed.

(** When the call answers and every unreadable connection raises a handled
    error, the readable connections are returned in enumeration order. *)
Lemma collect_network_connections_handled items :
  all_handled [AttributeError; AccessDenied] items = true →
  collect_network_connections (Ok items) =
  Ok (map make_connection (answered items)).
Proof.
  intros H. unfold collect_network_connections.
  by rewrite connections_loop_handled.
Qed.

(** An error of the call other than access-denied is passed on. *)
Lemma collect_network_connections_propagates e :
  handles [AccessDenied] e = false →
  collect_network_connections (Raise e) = Raise e.
Proof. intros H. unfold collect_network_connections. by rewrite H. Qed.

Lemma get_network_summary_collect probe :
  get_network_summary probe =
  summarize <$> collect_network_connections probe.
Proof.
  unfold get_network_summary. by destruct (collect_network_connections probe).
Qed.

(** ** network.py: the three accumulators *)

Lemma increment_sum k (d : gmap string nat) :
  sum_values (increment k d) = S (sum_values d).
Proof.
  unfold increment. destruct (d !! k) as [n |] eqn:E; cbn [default].
  - pose proof (sum_values_insert_present d k n (S (id n)) E).
    unfold id in *. lia.
  - by rewrite sum_values_insert_fresh.
Qed.

Lemma increment_lookup k (d : gmap string nat) j :
  default 0 (increment k d !! j) =
  default 0 (d !! j) + (if String.eqb k j then 1 else 0).
Proof.
  unfold increment. destruct (String.eqb_spec k j) as [-> | Hne].
  - rewrite lookup_insert_eq. cbn. lia.
  - rewrite lookup_insert_ne by done. lia.
Qed.

Lemma increment_lookup_other k (d : gmap string nat) j :
  k ≠ j → increment k d !! j = d !! j.
Proof. intros Hne. unfold increment. by rewrite lookup_insert_ne. Qed.

Lemma fold_status_sum connections acc :
  sum_values (status_count (foldl count_connection acc connections)) =
  sum_values (status_count acc) + length connections.
Proof.
  revert acc. induction connections as [| conn conns IH]; intros acc; cbn.
  - lia.
  - rewrite IH. cbn [count_connection status_count].
    rewrite increment_sum. lia.
Qed.

Lemma fold_status_lookup connections acc s :
  default 0 (status_count (foldl count_connection acc connections) !! s) =
  default 0 (status_count acc !! s) + count_if (has_status s) connections.
Proof.
  revert acc. induction connections as [| conn conns IH]; intros acc.
  - cbn. lia.
  - cbn [foldl]. rewrite IH. cbn [count_connection status_count].
    rewrite increment_lookup. unfold count_if, has_status.
    cbn [List.filter]. destruct (String.eqb (status conn) s); cbn; lia.
Qed.

(** One connection changes the protocol counters as its type says. *)
Lemma count_connection_protocol acc conn :
  protocol_count (count_connection acc conn) =
  if is_tcp conn then increment "TCP" (protocol_count acc)
  else if is_udp conn then increment "UDP" (protocol_count acc)
  else protocol_count acc.
Proof.
  unfold is_tcp, is_udp. cbn [count_connection protocol_count].
  by destruct (contains "STREAM" (type conn)).
Qed.

Lemma is_tcp_not_udp conn : is_tcp conn = true → is_udp conn = false.
Proof. unfold is_tcp, is_udp. by intros ->. Qed.

Lemma fold_protocol_lookup connections acc :
  default 0 (protocol_count (foldl count_connection acc connections) !! "TCP") =
    default 0 (protocol_count acc !! "TCP") + count_if is_tcp connections ∧
  default 0 (protocol_count (foldl count_connection acc connections) !! "UDP") =
    default 0 (protocol_count acc !! "UDP") + count_if is_udp connections.
Proof.
  revert acc. induction connections as [| conn conns IH]; intros acc.
  - cbn. lia.
  - cbn [foldl]. destruct (IH (count_connection acc conn)) as [-> ->].
    rewrite count_connection_protocol. unfold count_if. cbn [List.filter].
    destruct (is_tcp conn) eqn:Et.
    + rewrite (is_tcp_not_udp _ Et), !increment_lookup. cbn. lia.
    + destruct (is_udp conn); [rewrite !increment_lookup |]; cbn; lia.
Qed.

Lemma fold_protocol_other connections acc k :
  k ≠ "TCP" → k ≠ "UDP" →
  protocol_count (foldl count_connection acc connections) !! k =
  protocol_count acc !! k.
Proof.
  intros Ht Hu. revert acc.
  induction connections as [| conn conns IH]; intros acc; [done |].
  cbn [foldl]. rewrite IH, count_connection_protocol.
  destruct (is_tcp conn); [by apply increment_lookup_other |].
  destruct (is_udp conn); [by apply increment_lookup_other | done].
Qed.

Lemma fold_protocol_sum connections acc :
  sum_values (protocol_count (foldl count_connection acc connections)) =
  sum_values (protocol_count acc) +
  count_if (λ conn, is_tcp conn || is_udp conn) connections.
Proof.
  revert acc. induction connections as [| conn conns IH]; intros acc.
  - cbn. lia.
  - cbn [foldl]. rewrite IH, count_connection_protocol.
    unfold count_if. cbn [List.filter].
    destruct (is_tcp conn); [rewrite increment_sum; cbn; lia |].
    destruct (is_udp conn); [rewrite increment_sum |]; cbn; lia.
Qed.

Lemma count_connection_listening acc conn :
  listening (count_connection acc conn) =
  listening acc ++ listeners [conn].
Proof.
  unfold listeners, is_bound_listener, entry_of.
  cbn [count_connection listening List.filter].
  destruct (String.eqb (status conn) "LISTEN"), (local_port conn) eqn:E;
    cbn; rewrite ?E, ?app_nil_r; done.
Qed.

Lemma listeners_app l1 l2 : listeners (l1 ++ l2) = listeners l1 ++ listeners l2.
Proof. unfold listeners. by rewrite List.filter_app, map_app. Qed.

Lemma fold_listening connections acc :
  listening (foldl count_connection acc connections) =
  listening acc ++ listeners connections.
Proof.
  revert acc. induction connections as [| conn conns IH]; intros acc.
  - cbn. by rewrite app_nil_r.
  - cbn [foldl]. rewrite IH, count_connection_listening, <- app_assoc.
    by rewrite <- listeners_app.
Qed.

End NetworkFacts.

(** ** network.py: the properties of the summary *)
Module NetworkProperties.
Import Network NetworkSpec NetworkFacts.

Lemma same_port_filter p (l : list Listening.entry) :
  List.filter (same_key Z.leb Listening.port p) l =
  List.filter (λ e, (Listening.port e =? p)%Z) l.
Proof.
  apply List.filter_ext. intros e. unfold same_key.
  destruct (Z.eqb_spec (Listening.port e) p); lia.
Qed.

(** C3, as the code has it.  [listening_ports] holds the
    [{port, address, pid}] records of exactly the connections whose status
    is LISTEN and whose local port is not "N/A"; it is in ascending order of
    port, and the records of one port keep their enumeration order. *)
Theorem listening_ports_sorted_stable connections :
  listening_ports (summarize connections) =
    py_sort Z.leb Listening.port false (listeners connections) ∧
  Permutation (listening_ports (summarize connections))
    (listeners connections) ∧
  non_decreasing Listening.port (listening_ports (summarize connections)) ∧
  ∀ p,
    List.filter (λ e, (Listening.port e =? p)%Z)
      (listening_ports (summarize connections)) =
    List.filter (λ e, (Listening.port e =? p)%Z) (listeners connections).
Proof.
  assert (listening_ports (summarize connections) =
          py_sort Z.leb Listening.port false (listeners connections)) as Heq.
  { unfold summarize. cbn [listening_ports]. by rewrite fold_listening. }
  rewrite Heq. split; [done |]. split; [apply py_sort_perm |].
  split; [apply py_sort_non_decreasing |].
  intros p. rewrite <- !same_port_filter.
  apply (py_sort_same_key Z.leb Listening.port Zleb_trans p false).
Qed.

(** C3, as the specification words it, fails: a connection in the LISTEN
    state without a local address is enumerated and is not among the
    listening ports. *)
Lemma listening_ports_omits_unbound_listener :
  status (make_connection Samples.unbound_listener) = "LISTEN" ∧
  collect_network_connections (Ok [Ok Samples.unbound_listener]) =
    Ok [make_connection Samples.unbound_listener] ∧
  listening_ports (summarize [make_connection Samples.unbound_listener]) = [].
Proof. repeat split. Qed.

(** C6.  When [psutil.net_connections] is refused with access-denied, the
    collector returns the empty list, the summary is the one of zero
    connections, and [collect_network_info] still returns its document. *)
Theorem access_denied_gives_empty_summary :
  collect_network_connections (Raise AccessDenied) = Ok [] ∧
  get_network_summary (Raise AccessDenied) = Ok empty_summary ∧
  ∀ (Interfaces : Type) (ifs : Interfaces) (probe_all : connections_probe),
    collect_network_info (Raise AccessDenied) (Ok ifs) false probe_all =
      Ok {| summary := empty_summary; interfaces := ifs;
            all_connections := None |} ∧
    collect_network_info (Raise AccessDenied) (Ok ifs) true
        (Raise AccessDenied) =
      Ok {| summary := empty_summary; interfaces := ifs;
            all_connections := Some [] |}.
Proof. repeat split. Qed.

(** C7.  Every connection is counted in [total_connections]; "TCP" counts
    the connections whose type contains "STREAM", "UDP" those whose type
    does not and contains "DGRAM" (the test for "STREAM" comes first);
    [by_protocol] has no other key, and a connection whose type matches
    neither word adds to no bucket. *)
Theorem protocol_by_substring connections :
  total_connections (summarize connections) = length connections ∧
  default 0 (by_protocol (summarize connections) !! "TCP") =
    count_if is_tcp connections ∧
  default 0 (by_protocol (summarize connections) !! "UDP") =
    count_if is_udp connections ∧
  (∀ k, k ≠ "TCP" → k ≠ "UDP" →
     by_protocol (summarize connections) !! k = None) ∧
  sum_values (by_protocol (summarize connections)) =
    count_if (λ conn, is_tcp conn || is_udp conn) connections.
Proof.
  unfold summarize. cbn [total_connections by_protocol].
  split; [done |].
  destruct (fold_protocol_lookup connections initial_counters) as [-> ->].
  split; [done |]. split; [done |]. split.
  - intros k Ht Hu. by rewrite fold_protocol_other.
  - rewrite fold_protocol_sum. cbn [initial_counters protocol_count].
    by rewrite sum_values_empty.
Qed.

Lemma protocol_by_substring_witness :
  ("SCTP" ≠ "TCP" → "SCTP" ≠ "UDP" →
   by_protocol (summarize (map make_connection (answered Samples.connections)))
     !! "SCTP" = None) ∧
  default 0 (by_protocol
    (summarize (map make_connection (answered Samples.connections))) !! "TCP")
    = 3.
Proof.
  pose proof (protocol_by_substring
                (map make_connection (answered Samples.connections)))
    as (_ & Ht & _ & Hk & _).
  split; [apply Hk | rewrite Ht; reflexivity].
Defined.

(** C9.  The counts of [by_status] add up to [total_connections]: each
    connection adds one to the count of its own status and to no other. *)
Theorem by_status_sums_to_total connections :
  sum_values (by_status (summarize connections)) =
    total_connections (summarize connections) ∧
  total_connections (summarize connections) = length connections ∧
  ∀ s, default 0 (by_status (summarize connections) !! s) =
       count_if (has_status s) connections.
Proof.
  unfold summarize. cbn [total_connections by_status].
  split; [| split; [done |]].
  - rewrite fold_status_sum. cbn [initial_counters status_count].
    by rewrite sum_values_empty.
  - intros s. rewrite fold_status_lookup. by cbn.
Qed.

End NetworkProperties.

(** ** logger.py: the choice of format and the file write *)
Module LoggerFacts.
Import Logger LoggerSpec.

Lemma lower_ascii_is_letter (small capital c : ascii) :
  lower_ascii capital = small → lower_ascii small = small →
  (∀ d, lower_ascii d = small → d = small ∨ d = capital) →
  Ascii.eqb (lower_ascii c) small = is_letter small capital c.
Proof.
  intros Hc Hs Hinv. unfold is_letter.
  destruct (Ascii.eqb_spec (lower_ascii c) small) as [Heq | Hne].
  - destruct (Hinv c Heq) as [-> | ->].
    + by rewrite Ascii.eqb_refl.
    + by rewrite Ascii.eqb_refl, orb_true_r.
  - destruct (Ascii.eqb_spec c small) as [-> | ?]; [done |].
    destruct (Ascii.eqb_spec c capital) as [-> | ?]; done.
Qed.

Ltac by_cases_on_byte d :=
  destruct d as [[] [] [] [] [] [] [] []]; vm_compute; intros H;
  first [discriminate H | by left | by right].

Lemma lower_ascii_j c :
  Ascii.eqb (lower_ascii c) "j" = is_letter "j" "J" c.
Proof. apply lower_ascii_is_letter; [done | done |]. intros d. by_cases_on_byte d. Qed.

Lemma lower_ascii_s c :
  Ascii.eqb (lower_ascii c) "s" = is_letter "s" "S" c.
Proof. apply lower_ascii_is_letter; [done | done |]. intros d. by_cases_on_byte d. Qed.

Lemma lower_ascii_o c :
  Ascii.eqb (lower_ascii c) "o" = is_letter "o" "O" c.
Proof. apply lower_ascii_is_letter; [done | done |]. intros d. by_cases_on_byte d. Qed.

Lemma lower_ascii_n c :
  Ascii.eqb (lower_ascii c) "n" = is_letter "n" "N" c.
Proof. apply lower_ascii_is_letter; [done | done |]. intros d. by_cases_on_byte d. Qed.

(** The lower-cased format is "json" exactly for the spellings of "json". *)
Lemma lower_is_json format :
  String.eqb (lower format) "json" = json_ignoring_case format.
Proof.
  destruct format as [| c1 [| c2 [| c3 [| c4 [| c5 rest]]]]];
    cbn [lower String.eqb json_ignoring_case];
    rewrite ?lower_ascii_j, ?lower_ascii_s, ?lower_ascii_o, ?lower_ascii_n;
    rewrite ?andb_false_r; try reflexivity.
  - by destruct (is_letter "j" "J" c1).
  - by destruct (is_letter "j" "J" c1), (is_letter "s" "S" c2).
  - by destruct (is_letter "j" "J" c1), (is_letter "s" "S" c2),
      (is_letter "o" "O" c3).
  - destruct (is_letter "j" "J" c1), (is_letter "s" "S" c2),
      (is_letter "o" "O" c3), (is_letter "n" "N" c4); reflexivity.
  - destruct (is_letter "j" "J" c1), (is_letter "s" "S" c2),
      (is_letter "o" "O" c3), (is_letter "n" "N" c4); reflexivity.
Qed.

Lemma string_take_prefix n s : String.prefix (string_take n s) s = true.
Proof.
  revert s. induction n as [| n IH]; intros [| c s]; cbn; try done.
  destruct (ascii_dec c c); [apply IH | done].
Qed.

Lemma string_take_length n s :
  String.length (string_take n s) = Nat.min n (String.length s).
Proof.
  revert s. induction n as [| n IH]; intros [| c s]; cbn; try done.
  by rewrite IH.
Qed.

Section WriteLogFacts.
Context {Data : Type}.
Context (format_json format_text : enhanced_data Data → string).
Context (joinpath : string → string → string).

(** What [write_log] leaves behind, by the answer of the file system. *)
Lemma write_log_outcomes self iso_now p d now fs io :
  write_log format_json format_text joinpath self iso_now p d now fs io =
  let content := render format_json format_text self (enhance iso_now p d) in
  let filepath := joinpath (output_dir self) (generate_filename self now) in
  match io with
  | IoDone => (Ok filepath, <[filepath := content]> fs)
  | IoOpenError e => (Raise e, fs)
  | IoWriteError accepted e =>
      (Raise e, <[filepath := string_take accepted content]> fs)
  end.
Proof.
  unfold write_log, open_w, write_all.
  destruct io; cbn; by rewrite ?insert_insert_eq.
Qed.

End WriteLogFacts.

End LoggerFacts.

(** ** logger.py: the properties of the report writer *)
Module LoggerProperties.
Import Logger LoggerSpec LoggerFacts.

(** C10.  The logger keeps the lower-cased format.  For a format that spells
    "json" in any mix of cases the report is rendered by [format_json] and
    the file name ends in ".json"; for every other format it is rendered by
    [format_text] and the name ends in ".log".  [write_log] writes that
    rendering under that name. *)
Theorem format_selection_ignores_case
    {Data : Type} (format_json format_text : enhanced_data Data → string)
    (joinpath : string → string → string)
    (dir fmt iso_now now : string) (p : platform_probe) (d : Data)
    (fs : files) :
  init dir fmt None = Ok {| output_dir := dir; format := lower fmt |} ∧
  render format_json format_text {| output_dir := dir; format := lower fmt |}
      (enhance iso_now p d) =
    (if json_ignoring_case fmt
     then format_json (enhance iso_now p d)
     else format_text (enhance iso_now p d)) ∧
  generate_filename {| output_dir := dir; format := lower fmt |} now =
    "health_monitor_" +:+ now +:+ "." +:+
      (if json_ignoring_case fmt then "json" else "log") ∧
  write_log format_json format_text joinpath
      {| output_dir := dir; format := lower fmt |} iso_now p d now fs IoDone =
    (Ok (joinpath dir ("health_monitor_" +:+ now +:+ "." +:+
           (if json_ignoring_case fmt then "json" else "log"))),
     <[joinpath dir ("health_monitor_" +:+ now +:+ "." +:+
         (if json_ignoring_case fmt then "json" else "log")) :=
         if json_ignoring_case fmt
         then format_json (enhance iso_now p d)
         else format_text (enhance iso_now p d)]> fs).
Proof.
  assert (generate_filename {| output_dir := dir; format := lower fmt |} now =
          "health_monitor_" +:+ now +:+ "." +:+
            (if json_ignoring_case fmt then "json" else "log")) as Hname.
  { unfold generate_filename. cbn [format]. by rewrite lower_is_json. }
  assert (render format_json format_text
            {| output_dir := dir; format := lower fmt |} (enhance iso_now p d) =
          (if json_ignoring_case fmt
           then format_json (enhance iso_now p d)
           else format_text (enhance iso_now p d))) as Hrender.
  { unfold render. cbn [format]. by rewrite lower_is_json. }
  split; [done |]. split; [done |]. split; [done |].
  rewrite write_log_outcomes. cbn zeta. cbn [output_dir].
  by rewrite Hname, Hrender.
Qed.

(** C2, as the code has it.  [write_log] opens the file, which creates or
    empties it, and hands it the whole rendering in one write.  When all of
    it succeeds the file at the returned path holds exactly the rendering;
    when the open fails the file store is as before; when an error comes
    after the open, no path is returned and the file holds the characters
    accepted until then, a prefix of the rendering. *)
Theorem write_log_single_write
    {Data : Type} (format_json format_text : enhanced_data Data → string)
    (joinpath : string → string → string)
    (self : HealthLogger) (iso_now now : string) (p : platform_probe)
    (d : Data) (fs : files) (io : io_outcome) :
  write_log format_json format_text joinpath self iso_now p d now fs io =
    match io with
    | IoDone =>
        (Ok (joinpath (output_dir self) (generate_filename self now)),
         <[joinpath (output_dir self) (generate_filename self now) :=
             render format_json format_text self (enhance iso_now p d)]> fs)
    | IoOpenError e => (Raise e, fs)
    | IoWriteError accepted e =>
        (Raise e,
         <[joinpath (output_dir self) (generate_filename self now) :=
             string_take accepted
               (render format_json format_text self (enhance iso_now p d))]>
           fs)
    end ∧
  ∀ accepted,
    String.prefix
      (string_take accepted
         (render format_json format_text self (enhance iso_now p d)))
      (render format_json format_text self (enhance iso_now p d)) = true.
Proof.
  split; [by rewrite write_log_outcomes |].
  intros accepted. apply string_take_prefix.
Qed.

(** C2, as the specification words it, fails: when the write is cut short
    after one character, the file at the path holds that character, which is
    neither the complete report nor nothing. *)
Lemma write_log_leaves_partial_report :
  render verbatim verbatim json_logger
    (enhance "2026-01-01T00:00:00" this_host "{ }") = "{ }" ∧
  write_log verbatim verbatim slash json_logger "2026-01-01T00:00:00"
      this_host "{ }" "20260101_000000" ∅ (IoWriteError 1 OSError) =
    (Raise OSError,
     {["out/health_monitor_20260101_000000.json" := "{"]}).
Proof. split; reflexivity. Qed.

End LoggerProperties.

(** ** metrics.py: rounding to gigabytes *)
Module MetricsFacts.
Import Metrics MetricsSpec.



Lemma round_half_even_mono (p q : Q) :
  (p <= q)%Q → (round_half_even p <= round_half_even q)%Z.
Proof.
  intros Hle. unfold Qle in Hle. unfold round_half_even.
  destruct p as [n1 d1], q as [n2 d2]. cbn in *.
  pose proof (Z.div_mod n1 (Zpos d1) ltac:(lia)) as Hdm1.
  pose proof (Z.mod_pos_bound n1 (Zpos d1) ltac:(lia)) as Hr1.
  pose proof (Z.div_mod n2 (Zpos d2) ltac:(lia)) as Hdm2.
  pose proof (Z.mod_pos_bound n2 (Zpos d2) ltac:(lia)) as Hr2.
  set (f1 := (n1 / Zpos d1)%Z) in *. set (r1 := (n1 mod Zpos d1)%Z) in *.
  set (f2 := (n2 / Zpos d2)%Z) in *. set (r2 := (n2 mod Zpos d2)%Z) in *.
  assert (f1 <= f2)%Z as Hf.
  { destruct (Z_le_gt_dec f1 f2) as [? | Hgt]; [done |]. exfalso.
    assert (Zpos d1 * Zpos d2 * (f2 + 1) <= Zpos d1 * Zpos d2 * f1)%Z
      by (apply Z.mul_le_mono_nonneg_l; lia).
    nia. }
  destruct (Z.eq_dec f1 f2) as [-> | Hne].
  - assert (r1 * Zpos d2 <= r2 * Zpos d1)%Z as Hr by nia.
    destruct (Z.compare_spec (2 * r1) (Zpos d1)),
      (Z.compare_spec (2 * r2) (Zpos d2));
      try destruct (Z.even f2); try lia; nia.
  - destruct (Z.compare_spec (2 * r1) (Zpos d1)),
      (Z.compare_spec (2 * r2) (Zpos d2));
      try destruct (Z.even f1); try destruct (Z.even f2); lia.
Qed.

Lemma round2_mono (p q : Q) : (p <= q)%Q → (round2 p <= round2 q)%Q.
Proof.
  intros Hle. unfold round2.
  assert (p * 100 <= q * 100)%Q as H100
    by (apply Qmult_le_compat_r; [done | by unfold Qle]).
  pose proof (round_half_even_mono _ _ H100).
  unfold Qle. cbn. lia.
Qed.

Lemma gb_quotient_mono (a b : Z) :
  (a <= b)%Z →
  (inject_Z a / inject_Z (1024 ^ 3) <= inject_Z b / inject_Z (1024 ^ 3))%Q.
Proof.
  intros Hab. apply Qmult_le_compat_r; [| by unfold Qle].
  by rewrite <- Zle_Qle.
Qed.


(** A whole number of gibibytes is reported as that number: 8 GiB of used
    memory give [used_gb == 8]. *)
Theorem to_gb_whole (k : Z) :
  (to_gb (k * 1024 ^ 3) == inject_Z k)%Q.
Proof.
  unfold to_gb, round2, round_half_even.
  change (1024 ^ 3)%Z with 1073741824%Z.
  change (Qnum (inject_Z (k * 1073741824) / inject_Z 1073741824 * 100))
    with (k * 1073741824 * 1 * 100)%Z.
  change (Qden (inject_Z (k * 1073741824) / inject_Z 1073741824 * 100))
    with (1 * 1073741824 * 1)%positive.
  change (Z.pos (1 * 1073741824 * 1)) with 1073741824%Z.
  replace (k * 1073741824 * 1 * 100)%Z with (k * 100 * 1073741824)%Z by lia.
  rewrite Z.div_mul, Z.mod_mul by lia.
  change (2 * 0 ?= 1073741824)%Z with Lt.
  unfold Qeq. cbn. lia.
Qed.

(** Rounding keeps the order of the byte counts: memory that is used is
    never reported larger, in gigabytes, than the memory there is. *)
Theorem to_gb_mono (a b : Z) : (a <= b)%Z → (to_gb a <= to_gb b)%Q.
Proof. intros Hab. by apply round2_mono, gb_quotient_mono. Qed.

Lemma to_gb_mono_witness :
  (8 * 1024 ^ 3 <= 16 * 1024 ^ 3)%Z ∧
  (used_gb (collect_memory_metrics sample_memory sample_swap) <=
   total_gb (collect_memory_metrics sample_memory sample_swap))%Q.
Proof.
  split; [lia |].
  apply (to_gb_mono (8 * 1024 ^ 3) (16 * 1024 ^ 3)). lia.
Defined.

End MetricsFacts.

(** ** metrics.py: the disk map *)
Module DiskFacts.
Import Metrics MetricsSpec.

Lemma disk_loop_handled partitions disk_info :
  all_handled [OSError; OSError] (map snd partitions) = true →
  ∃ d,
    disk_loop disk_info partitions = Ok d ∧
    ∀ m, d !! m =
         match last_answer m partitions with
         | Some found => Some (make_disk_entry found.1 found.2)
         | None => disk_info !! m
         end.
Proof.
  revert disk_info.
  induction partitions as [| [p [u | e]] rest IH]; intros acc H.
  - exists acc. by split.
  - cbn in H. destruct (IH (<[part_mountpoint p := make_disk_entry p u]> acc) H)
      as (d & Hd & Hl).
    exists d. split; [done |]. intros m. rewrite Hl. cbn [last_answer].
    destruct (last_answer m rest); [done |].
    destruct (String.eqb_spec (part_mountpoint p) m) as [-> | Hne].
    + by rewrite lookup_insert_eq.
    + by rewrite lookup_insert_ne.
  - cbn [map snd all_handled forallb] in H. apply andb_prop in H as [He H].
    destruct (IH acc H) as (d & Hd & Hl).
    exists d. split; [cbn [disk_loop]; by rewrite He |].
    intros m. rewrite Hl. cbn [last_answer]. by destruct (last_answer m rest).
Qed.

Lemma last_answer_Some m partitions :
  is_Some (last_answer m partitions) ↔
  ∃ p u, In (p, Ok u) partitions ∧ part_mountpoint p = m.
Proof.
  induction partitions as [| [p r] rest IH]; cbn [last_answer In].
  - split; [by intros [? ?] | by intros (? & ? & [] & _)].
  - destruct (last_answer m rest) as [found |] eqn:E.
    + split; [| eauto]. intros _.
      destruct (proj1 IH) as (p' & u' & Hin & Hm); eauto 6.
    + destruct r as [u | e].
      * destruct (String.eqb_spec (part_mountpoint p) m) as [Heq | Hne].
        -- split; [| eauto]. intros _. exists p, u. auto.
        -- split; [by intros [? ?] |].
           intros (p' & u' & [Hhd | Htl] & Hm).
           ++ congruence.
           ++ apply IH. eauto.
      * split; [by intros [? ?] |].
        intros (p' & u' & [Hhd | Htl] & Hm); [congruence |].
        apply IH. eauto.
Qed.

(** A partition whose usage raises [OSError] (or its subclass
    [PermissionError]) is skipped and the collection goes on: a mount point
    is in the disk map exactly when the usage of some partition mounted there
    could be read. *)
Theorem disk_map_holds_readable_mounts partitions :
  all_handled [OSError; OSError] (map snd partitions) = true →
  ∃ d,
    collect_disk_metrics partitions = Ok d ∧
    ∀ m, is_Some (d !! m) ↔
         ∃ p u, In (p, Ok u) partitions ∧ part_mountpoint p = m.
Proof.
  intros H. destruct (disk_loop_handled partitions ∅ H) as (d & Hd & Hl).
  exists d. split; [done |]. intros m.
  rewrite <- last_answer_Some, Hl.
  destruct (last_answer m partitions); [| by rewrite lookup_empty].
  split; eauto.
Qed.

Lemma disk_map_holds_readable_mounts_witness :
  all_handled [OSError; OSError] (map snd sample_partitions) = true ∧
  ∃ d,
    collect_disk_metrics sample_partitions = Ok d ∧
    ∀ m, is_Some (d !! m) ↔
         ∃ p u, In (p, Ok u) sample_partitions ∧ part_mountpoint p = m.
Proof.
  split; [reflexivity |].
  apply (disk_map_holds_readable_mounts sample_partitions). reflexivity.
Defined.

(** When two partitions share a mount point, the entry of the map is the one
    of the last of them that could be read. *)
Theorem disk_map_last_partition_wins partitions :
  all_handled [OSError; OSError] (map snd partitions) = true →
  ∃ d,
    collect_disk_metrics partitions = Ok d ∧
    ∀ m, d !! m =
         (λ found, make_disk_entry found.1 found.2) <$>
           last_answer m partitions.
Proof.
  intros H. destruct (disk_loop_handled partitions ∅ H) as (d & Hd & Hl).
  exists d. split; [done |]. intros m. rewrite Hl.
  destruct (last_answer m partitions); [done | by rewrite lookup_empty].
Qed.

Lemma disk_map_last_partition_wins_witness :
  all_handled [OSError; OSError] (map snd sample_partitions) = true ∧
  ∃ d,
    collect_disk_metrics sample_partitions = Ok d ∧
    ∀ m, d !! m =
         (λ found, make_disk_entry found.1 found.2) <$>
           last_answer m sample_partitions.
Proof.
  split; [reflexivity |].
  apply (disk_map_last_partition_wins sample_partitions). reflexivity.
Defined.

(** An exception of another class ends the collection: nothing is
    returned, not even the entries read so far. *)
Theorem disk_metrics_other_error_propagates before p e after :
  all_handled [OSError; OSError] (map snd before) = true →
  handles [OSError; OSError] e = false →
  collect_disk_metrics (before ++ (p, Raise e) :: after) = Raise e.
Proof.
  intros H He. unfold collect_disk_metrics. generalize (∅ : gmap string Disk.entry).
  induction before as [| [p' [u | e']] rest IH]; intros acc.
  - cbn [app disk_loop]. by rewrite He.
  - cbn in H. cbn [app disk_loop]. by apply IH.
  - cbn [map snd all_handled forallb] in H. apply andb_prop in H as [He' H].
    cbn [app disk_loop]. rewrite He'. by apply IH.
Qed.

Lemma disk_metrics_other_error_propagates_witness :
  all_handled [OSError; OSError] (map snd sample_partitions) = true ∧
  handles [OSError; OSError] RuntimeError = false ∧
  collect_disk_metrics
    (sample_partitions ++ (part "/dev/sdc1" "/mnt", Raise RuntimeError) :: []) =
    Raise RuntimeError.
Proof.
  split; [reflexivity |]. split; [reflexivity |].
  apply (disk_metrics_other_error_propagates sample_partitions); reflexivity.
Defined.

End DiskFacts.

(** ** network.py: the interfaces *)
Module InterfacesFacts.
Import Interfaces InterfacesSpec.

Lemma addresses_fold acc (addr_list : list snicaddr) :
  foldl (λ acc addr, acc ++ [make_address addr]) acc addr_list =
  acc ++ map make_address addr_list.
Proof.
  revert acc. induction addr_list as [| a l IH]; intros acc; cbn.
  - by rewrite app_nil_r.
  - by rewrite IH, <- app_assoc.
Qed.

Section Loop.
Context (stats : gmap string snicstats) (io_counters : gmap string snetio).

Lemma interfaces_fold_other addrs (acc : gmap string interface_info) name :
  ¬ In name (map fst addrs) →
  foldl
    (λ interfaces item,
       <[item.1 := make_interface stats io_counters item.1 item.2]> interfaces)
    acc addrs !! name = acc !! name.
Proof.
  revert acc. induction addrs as [| [n l] rest IH]; intros acc Hnot; [done |].
  cbn [foldl]. rewrite IH by (intros Hin; apply Hnot; by right).
  apply lookup_insert_ne. intros Heq. apply Hnot. by left.
Qed.

Lemma interfaces_fold_names addrs (acc : gmap string interface_info) name :
  is_Some
    (foldl
       (λ interfaces item,
          <[item.1 := make_interface stats io_counters item.1 item.2]>
            interfaces)
       acc addrs !! name) ↔
  is_Some (acc !! name) ∨ In name (map fst addrs).
Proof.
  revert acc. induction addrs as [| [n l] rest IH]; intros acc.
  - cbn. tauto.
  - cbn [foldl map In fst]. rewrite IH, lookup_insert_is_Some.
    destruct (decide (n = name)); tauto.
Qed.

Lemma interfaces_fold_entry addrs (acc : gmap string interface_info) name l :
  NoDup (map fst addrs) → In (name, l) addrs →
  foldl
    (λ interfaces item,
       <[item.1 := make_interface stats io_counters item.1 item.2]> interfaces)
    acc addrs !! name = Some (make_interface stats io_counters name l).
Proof.
  revert acc. induction addrs as [| [n l'] rest IH]; intros acc Hnd Hin;
    [done |].
  cbn [map fst] in Hnd. apply NoDup_cons in Hnd as [Hn Hnd].
  cbn [foldl]. destruct Hin as [[= -> ->] | Hin].
  - rewrite interfaces_fold_other by (by rewrite <- list_elem_of_In).
    apply lookup_insert_eq.
  - by apply IH.
Qed.

End Loop.

(** The interfaces reported are those of the address list: an interface
    that only the link statistics or the counters know is not reported. *)
Theorem interfaces_are_those_with_addresses addrs stats io_counters name :
  is_Some (collect_network_interfaces addrs stats io_counters !! name) ↔
  In name (map fst addrs).
Proof.
  unfold collect_network_interfaces. rewrite interfaces_fold_names.
  rewrite lookup_empty. split; [| auto]. by intros [[? ?] | ?].
Qed.

(** Each interface of the address list is reported with its addresses in
    their order; the link fields are those of the statistics, or false and
    zeros when the statistics do not name it; the counters are there exactly
    when the counters name it. *)
Theorem interface_entry_merges_queries addrs stats io_counters name l :
  NoDup (map fst addrs) → In (name, l) addrs →
  ∃ info,
    collect_network_interfaces addrs stats io_counters !! name = Some info ∧
    addresses info = map make_address l ∧
    io_stats info = io_counters !! name ∧
    (is_up info, speed info, mtu info) =
      match stats !! name with
      | Some stat => (nic_isup stat, nic_speed stat, nic_mtu stat)
      | None => (false, 0%Z, 0%Z)
      end.
Proof.
  intros Hnd Hin. eexists. split.
  - unfold collect_network_interfaces. by apply interfaces_fold_entry.
  - cbn [make_interface addresses io_stats is_up speed mtu].
    rewrite addresses_fold. split; [done |]. split; [done |].
    by destruct (stats !! name).
Qed.

Lemma interface_entry_merges_queries_witness :
  NoDup (map fst sample_addrs) ∧
  In ("tun0", [addr "10.0.0.2"]) sample_addrs ∧
  ∃ info,
    collect_network_interfaces sample_addrs sample_stats sample_io !! "tun0" =
      Some info ∧
    addresses info = map make_address [addr "10.0.0.2"] ∧
    io_stats info = sample_io !! "tun0" ∧
    (is_up info, speed info, mtu info) =
      match sample_stats !! "tun0" with
      | Some stat => (nic_isup stat, nic_speed stat, nic_mtu stat)
      | None => (false, 0%Z, 0%Z)
      end.
Proof.
  assert (NoDup (map fst sample_addrs)) as Hnd.
  { cbn. repeat constructor; rewrite ?elem_of_cons, ?elem_of_nil;
      intuition discriminate. }
  assert (In ("tun0", [addr "10.0.0.2"]) sample_addrs) as Hin
    by (cbn; auto).
  split; [exact Hnd |]. split; [exact Hin |].
  exact (interface_entry_merges_queries sample_addrs sample_stats sample_io
           "tun0" [addr "10.0.0.2"] Hnd Hin).
Defined.

End InterfacesFacts.

(** ** processes.py: more on enumeration and ranking *)
Module RankingFacts.
Import Processes ProcessSpec ProcessFacts SummaryFacts.

Lemma sorted_firstn_skipn {A} (R : A → A → Prop) (l : list A) n x y :
  StronglySorted R l → In x (firstn n l) → In y (skipn n l) → R x y.
Proof.
  intros Hs. revert n. induction Hs as [| a l Hl IH Ha]; intros n Hx Hy.
  - by destruct n.
  - destruct n as [| n]; [done |]. cbn in Hx, Hy. destruct Hx as [-> | Hx].
    + rewrite List.Forall_forall in Ha. apply Ha.
      rewrite <- (firstn_skipn n l). apply in_or_app. by right.
    + by apply (IH n).
Qed.

(** With a positive limit the ranking by memory holds the largest: every
    surviving record left out has a [memory_percent] that is at most the one
    of every record kept; the same for the ranking by CPU. *)
Theorem top_n_are_the_largest table n :
  all_handled [NoSuchProcess; AccessDenied; ZombieProcess] table = true →
  (0 < n)%Z →
  (∃ ranking rest,
     enumerate_processes table "memory" (Some n) = Ok ranking ∧
     Permutation (ranking ++ rest) (survivors table) ∧
     ∀ x y, In x ranking → In y rest →
            (memory_percent y <= memory_percent x)%Q) ∧
  (∃ ranking rest,
     enumerate_processes table "cpu" (Some n) = Ok ranking ∧
     Permutation (ranking ++ rest) (survivors table) ∧
     ∀ x y, In x ranking → In y rest →
            (cpu_percent y <= cpu_percent x)%Q).
Proof.
  intros H Hn. split.
  - destruct (ranking_positive_limit table "memory" n _ H
                (sort_processes_memory _) Hn) as [Heq _].
    eexists _, (skipn (Z.to_nat n) _). split; [exact Heq |].
    rewrite firstn_skipn. split; [apply py_sort_perm |].
    intros x y Hx Hy.
    exact (sorted_firstn_skipn
             (λ a b, (memory_percent b <= memory_percent a)%Q) _ _ x y
             (py_sort_non_increasing _ _) Hx Hy).
  - destruct (ranking_positive_limit table "cpu" n _ H
                (sort_processes_cpu _) Hn) as [Heq _].
    eexists _, (skipn (Z.to_nat n) _). split; [exact Heq |].
    rewrite firstn_skipn. split; [apply py_sort_perm |].
    intros x y Hx Hy.
    exact (sorted_firstn_skipn
             (λ a b, (cpu_percent b <= cpu_percent a)%Q) _ _ x y
             (py_sort_non_increasing _ _) Hx Hy).
Qed.

Lemma top_n_are_the_largest_witness :
  all_handled [NoSuchProcess; AccessDenied; ZombieProcess] Samples.table = true ∧
  (0 < 2)%Z ∧
  (∃ ranking rest,
     enumerate_processes Samples.table "memory" (Some 2%Z) = Ok ranking ∧
     Permutation (ranking ++ rest) (survivors Samples.table) ∧
     ∀ x y, In x ranking → In y rest →
            (memory_percent y <= memory_percent x)%Q) ∧
  (∃ ranking rest,
     enumerate_processes Samples.table "cpu" (Some 2%Z) = Ok ranking ∧
     Permutation (ranking ++ rest) (survivors Samples.table) ∧
     ∀ x y, In x ranking → In y rest →
            (cpu_percent y <= cpu_percent x)%Q).
Proof.
  split; [reflexivity |]. split; [lia |].
  apply (top_n_are_the_largest Samples.table 2); [reflexivity | lia].
Defined.

(** An exception that the loop does not handle ends the enumeration: the
    call raises it, whatever the order and the limit asked for. *)
Theorem enumerate_other_error_propagates before e after sort_by limit :
  all_handled [NoSuchProcess; AccessDenied; ZombieProcess] before = true →
  handles [NoSuchProcess; AccessDenied; ZombieProcess] e = false →
  enumerate_processes (before ++ Raise e :: after) sort_by limit = Raise e.
Proof.
  intros H He. unfold enumerate_processes.
  by rewrite enumerate_loop_unhandled.
Qed.

Lemma enumerate_other_error_propagates_witness :
  all_handled [NoSuchProcess; AccessDenied; ZombieProcess] Samples.table = true ∧
  handles [NoSuchProcess; AccessDenied; ZombieProcess] RuntimeError = false ∧
  enumerate_processes (Samples.table ++ Raise RuntimeError :: Samples.table)
    "memory" (Some 5%Z) = Raise RuntimeError.
Proof.
  split; [reflexivity |]. split; [reflexivity |].
  apply (enumerate_other_error_propagates Samples.table); reflexivity.
Defined.

(** A [sort_by] that is none of the four known words leaves the records in
    the order of enumeration. *)
Theorem unknown_sort_keeps_enumeration_order table sort_by :
  all_handled [NoSuchProcess; AccessDenied; ZombieProcess] table = true →
  sort_by ≠ "memory" → sort_by ≠ "cpu" → sort_by ≠ "pid" → sort_by ≠ "name" →
  enumerate_processes table sort_by None = Ok (survivors table).
Proof.
  intros H Hm Hc Hp Hn. rewrite enumerate_processes_handled by done.
  unfold sort_processes.
  apply String.eqb_neq in Hm, Hc, Hp, Hn. by rewrite Hm, Hc, Hp, Hn.
Qed.

Lemma unknown_sort_keeps_enumeration_order_witness :
  all_handled [NoSuchProcess; AccessDenied; ZombieProcess] Samples.table = true ∧
  "threads" ≠ "memory" ∧ "threads" ≠ "cpu" ∧ "threads" ≠ "pid" ∧
  "threads" ≠ "name" ∧
  enumerate_processes Samples.table "threads" None =
    Ok (survivors Samples.table).
Proof.
  repeat (split; [first [reflexivity | discriminate] |]).
  apply (unknown_sort_keeps_enumeration_order Samples.table "threads");
    first [reflexivity | discriminate].
Defined.

(** Sorting by pid gives the survivors in ascending order of pid. *)
Theorem sort_by_pid_ascending table :
  all_handled [NoSuchProcess; AccessDenied; ZombieProcess] table = true →
  ∃ ranking,
    enumerate_processes table "pid" None = Ok ranking ∧
    Permutation ranking (survivors table) ∧
    non_decreasing pid ranking.
Proof.
  intros H. rewrite enumerate_processes_handled by done.
  rewrite sort_processes_pid. eexists. split; [reflexivity |].
  split; [apply py_sort_perm | apply py_sort_non_decreasing].
Qed.

Lemma sort_by_pid_ascending_witness :
  all_handled [NoSuchProcess; AccessDenied; ZombieProcess] Samples.table = true ∧
  ∃ ranking,
    enumerate_processes Samples.table "pid" None = Ok ranking ∧
    Permutation ranking (survivors Samples.table) ∧
    non_decreasing pid ranking.
Proof.
  split; [reflexivity |].
  apply (sort_by_pid_ascending Samples.table). reflexivity.
Defined.

(** Ties are broken by the order of enumeration: in either full ranking the
    records that share a value of the key are in table order. *)
Theorem rankings_are_stable table (k : Q) :
  all_handled [NoSuchProcess; AccessDenied; ZombieProcess] table = true →
  (∃ ranking,
     enumerate_processes table "memory" None = Ok ranking ∧
     List.filter (same_key Qle_bool memory_percent k) ranking =
     List.filter (same_key Qle_bool memory_percent k) (survivors table)) ∧
  (∃ ranking,
     enumerate_processes table "cpu" None = Ok ranking ∧
     List.filter (same_key Qle_bool cpu_percent k) ranking =
     List.filter (same_key Qle_bool cpu_percent k) (survivors table)).
Proof.
  intros H. rewrite !enumerate_processes_handled by done.
  rewrite sort_processes_memory, sort_processes_cpu.
  split; eexists; (split; [reflexivity |]).
  - apply (py_sort_same_key Qle_bool memory_percent Qle_bool_trans k true).
  - apply (py_sort_same_key Qle_bool cpu_percent Qle_bool_trans k true).
Qed.

Lemma rankings_are_stable_witness :
  all_handled [NoSuchProcess; AccessDenied; ZombieProcess] Samples.table = true ∧
  (∃ ranking,
     enumerate_processes Samples.table "memory" None = Ok ranking ∧
     List.filter (same_key Qle_bool memory_percent (1 # 2)) ranking =
     List.filter (same_key Qle_bool memory_percent (1 # 2))
       (survivors Samples.table)) ∧
  (∃ ranking,
     enumerate_processes Samples.table "cpu" None = Ok ranking ∧
     List.filter (same_key Qle_bool cpu_percent (1 # 2)) ranking =
     List.filter (same_key Qle_bool cpu_percent (1 # 2))
       (survivors Samples.table)).
Proof.
  split; [reflexivity |].
  apply (rankings_are_stable Samples.table (1 # 2)). reflexivity.
Defined.

(** The summary has the six keys "total_processes", "running", "sleeping",
    "stopped", "zombie" and "other", and no status of a process adds one. *)
Theorem summary_has_six_keys table :
  all_handled [NoSuchProcess; AccessDenied] table = true →
  ∃ s,
    get_process_summary table = Ok s ∧
    ∀ k, is_Some (s !! k) ↔ k = "total_processes" ∨ k ∈ status_buckets.
Proof.
  intros H. unfold get_process_summary.
  rewrite summary_loop_handled by done.
  set (sc := foldl count_status _ _).
  assert (has_buckets sc) as Hb
    by apply foldl_count_status_has_buckets, initial_has_buckets.
  eexists. split; [reflexivity |]. intros k.
  rewrite lookup_union_is_Some, lookup_singleton_is_Some.
  specialize (Hb k). split; intros [? | ?]; auto; tauto.
Qed.

Lemma summary_has_six_keys_witness :
  all_handled [NoSuchProcess; AccessDenied] Samples.table = true ∧
  ∃ s,
    get_process_summary Samples.table = Ok s ∧
    ∀ k, is_Some (s !! k) ↔ k = "total_processes" ∨ k ∈ status_buckets.
Proof.
  split; [reflexivity |].
  apply (summary_has_six_keys Samples.table). reflexivity.
Defined.

End RankingFacts.

(** ** processes.py: the order by name *)
Module NameOrderFacts.
Import Processes ProcessSpec ProcessFacts.



Lemma all_names_present processes :
  forallb (λ x, match name x with Some _ => true | None => false end)
    processes = false ↔
  ∃ x, In x processes ∧ name x = None.
Proof.
  induction processes as [| p l IH]; cbn.
  - split; [done | by intros (? & [] & _)].
  - destruct (name p) eqn:E; cbn.
    + rewrite IH. split.
      * intros (x & Hin & Hx). eauto.
      * intros (x & [-> | Hin] & Hx); [congruence | eauto].
    + split; [eauto | done].
Qed.

(** Sorting by name fails with [AttributeError] as soon as one surviving
    process has no readable name, whatever the limit. *)
Theorem sort_by_name_needs_every_name table limit x :
  all_handled [NoSuchProcess; AccessDenied; ZombieProcess] table = true →
  In x (survivors table) → name x = None →
  enumerate_processes table "name" limit = Raise AttributeError.
Proof.
  intros H Hin Hx. rewrite enumerate_processes_handled by done.
  unfold sort_processes. cbn [String.eqb Ascii.eqb Bool.eqb].
  assert (forallb (λ x, match name x with Some _ => true | None => false end)
            (survivors table) = false) as ->
    by (apply all_names_present; eauto).
  reflexivity.
Qed.


Lemma sort_by_name_needs_every_name_witness :
  all_handled [NoSuchProcess; AccessDenied; ZombieProcess]
    ProcessSamples.table_with_nameless = true ∧
  In (make_process ProcessSamples.nameless)
    (survivors ProcessSamples.table_with_nameless) ∧
  name (make_process ProcessSamples.nameless) = None ∧
  enumerate_processes ProcessSamples.table_with_nameless "name" (Some 2%Z) =
    Raise AttributeError.
Proof.
  assert (In (make_process ProcessSamples.nameless)
            (survivors ProcessSamples.table_with_nameless)) as Hin
    by (cbn; auto).
  split; [reflexivity |]. split; [exact Hin |]. split; [reflexivity |].
  exact (sort_by_name_needs_every_name ProcessSamples.table_with_nameless
           (Some 2%Z) (make_process ProcessSamples.nameless)
           eq_refl Hin eq_refl).
Defined.


End NameOrderFacts.

(** ** network.py: more on the connections and their summary *)
Module ConnectionFacts.
Import Network NetworkSpec NetworkFacts.

(** Connections whose fields cannot be read ([AttributeError],
    [AccessDenied]) are skipped; the others are returned in the order of
    enumeration, each turned into its record. *)
Theorem unreadable_connections_are_skipped items :
  all_handled [AttributeError; AccessDenied] items = true →
  collect_network_connections (Ok items) =
    Ok (map make_connection (answered items)) ∧
  length (map make_connection (answered items)) ≤ length items.
Proof.
  intros H. split; [by apply collect_network_connections_handled |].
  rewrite length_map. clear H.
  induction items as [| [c | e] items IH]; cbn; lia.
Qed.

Lemma unreadable_connections_are_skipped_witness :
  all_handled [AttributeError; AccessDenied] Samples.connections = true ∧
  collect_network_connections (Ok Samples.connections) =
    Ok (map make_connection (answered Samples.connections)) ∧
  length (map make_connection (answered Samples.connections)) ≤
    length Samples.connections.
Proof.
  split; [reflexivity |].
  apply (unreadable_connections_are_skipped Samples.connections). reflexivity.
Defined.

Lemma connections_loop_unhandled before e after connections :
  all_handled [AttributeError; AccessDenied] before = true →
  handles [AttributeError; AccessDenied] e = false →
  connections_loop connections (before ++ Raise e :: after) =
  (connections ++ map make_connection (answered before), Some e).
Proof.
  revert connections.
  induction before as [| [c | e'] rest IH]; intros acc H He.
  - cbn [app connections_loop answered map]. by rewrite He, app_nil_r.
  - cbn in H. cbn [app connections_loop answered map].
    rewrite IH by done. by rewrite <- app_assoc.
  - cbn [all_handled forallb] in H. apply andb_prop in H as [He' H].
    cbn [app connections_loop answered]. rewrite He'. by apply IH.
Qed.

(** A connection that raises any other exception ends the collection: the
    exception is raised and the connections read before it are lost. *)
Theorem connection_other_error_propagates before e after :
  all_handled [AttributeError; AccessDenied] before = true →
  handles [AttributeError; AccessDenied] e = false →
  collect_network_connections (Ok (before ++ Raise e :: after)) = Raise e ∧
  get_network_summary (Ok (before ++ Raise e :: after)) = Raise e.
Proof.
  intros H He.
  assert (collect_network_connections (Ok (before ++ Raise e :: after)) =
          Raise e) as Heq.
  { unfold collect_network_connections.
    rewrite connections_loop_unhandled by done.
    destruct e; try discriminate He; reflexivity. }
  split; [done |]. unfold get_network_summary. by rewrite Heq.
Qed.

Lemma connection_other_error_propagates_witness :
  all_handled [AttributeError; AccessDenied] Samples.connections = true ∧
  handles [AttributeError; AccessDenied] NoSuchProcess = false ∧
  collect_network_connections
    (Ok (Samples.connections ++ Raise NoSuchProcess :: [])) =
    Raise NoSuchProcess ∧
  get_network_summary
    (Ok (Samples.connections ++ Raise NoSuchProcess :: [])) =
    Raise NoSuchProcess.
Proof.
  split; [reflexivity |]. split; [reflexivity |].
  apply (connection_other_error_propagates Samples.connections);
    reflexivity.
Defined.

Lemma increment_positive k (d : gmap string nat) :
  (∀ j n, d !! j = Some n → 0 < n) →
  ∀ j n, increment k d !! j = Some n → 0 < n.
Proof.
  intros Hd j n. unfold increment.
  destruct (decide (k = j)) as [-> | Hne].
  - rewrite lookup_insert_eq. intros [= <-]. lia.
  - rewrite lookup_insert_ne by done. apply Hd.
Qed.

Lemma fold_status_positive connections acc :
  (∀ j n, status_count acc !! j = Some n → 0 < n) →
  ∀ j n,
    status_count (foldl count_connection acc connections) !! j = Some n →
    0 < n.
Proof.
  revert acc. induction connections as [| c l IH]; intros acc Hacc; [done |].
  cbn [foldl]. apply IH. cbn [count_connection status_count].
  by apply increment_positive.
Qed.

(** [by_status] has a key for a status exactly when some connection has
    that status, and the count under a key is never 0. *)
Theorem by_status_keys_are_seen_statuses connections s :
  (by_status (summarize connections) !! s = None ↔
   count_if (has_status s) connections = 0) ∧
  ∀ n, by_status (summarize connections) !! s = Some n →
       0 < n ∧ n = count_if (has_status s) connections.
Proof.
  pose proof (fold_status_lookup connections initial_counters s) as Hcount.
  pose proof (fold_status_positive connections initial_counters) as Hpos.
  unfold summarize. cbn [by_status].
  cbn [initial_counters status_count] in Hcount, Hpos.
  rewrite lookup_empty in Hcount. cbn [default] in Hcount.
  specialize (Hpos ltac:(intros j n; by rewrite lookup_empty) s).
  destruct (status_count (foldl count_connection initial_counters connections)
              !! s) as [m |] eqn:E; cbn [default] in Hcount.
  - specialize (Hpos m eq_refl). unfold id in Hcount. split.
    + split; [done | lia].
    + intros n [= <-]. lia.
  - split; [split; [lia | done] | done].
Qed.

Lemma by_status_keys_are_seen_statuses_witness :
  by_status (summarize (map make_connection (answered Samples.connections)))
    !! "LISTEN" = Some 3 ∧
  0 < 3 ∧
  3 = count_if (has_status "LISTEN")
        (map make_connection (answered Samples.connections)).
Proof.
  split; [reflexivity |].
  apply (by_status_keys_are_seen_statuses
           (map make_connection (answered Samples.connections)) "LISTEN").
  reflexivity.
Defined.

(** The summary is consistent in its numbers: there are at most as many
    listening ports as connections in the LISTEN state, at most as many of
    those as connections, and the protocol counts add up to at most the
    number of connections. *)
Theorem summary_counts_are_bounded connections :
  length (listening_ports (summarize connections)) ≤
    default 0 (by_status (summarize connections) !! "LISTEN") ∧
  default 0 (by_status (summarize connections) !! "LISTEN") ≤
    total_connections (summarize connections) ∧
  sum_values (by_protocol (summarize connections)) ≤
    total_connections (summarize connections).
Proof.
  unfold summarize.
  cbn [listening_ports by_status by_protocol total_connections].
  rewrite py_sort_length, fold_listening, fold_status_lookup, fold_protocol_sum.
  cbn [initial_counters listening status_count protocol_count app].
  rewrite lookup_empty, sum_values_empty. cbn [default].
  unfold listeners, count_if. rewrite length_map.
  split; [| split].
  - induction connections as [| c l IH]; [done |].
    unfold is_bound_listener, has_status in *. cbn [List.filter].
    destruct (String.eqb (status c) "LISTEN"), (local_port c); cbn; lia.
  - cbn. apply List.filter_length_le.
  - cbn. apply List.filter_length_le.
Qed.

Section InfoFacts.
Context {Interfaces : Type}.


End InfoFacts.


End ConnectionFacts.

(** ** logger.py: file names and the file store *)
Module ReportFileFacts.
Import Logger LoggerSpec LoggerFacts.








Section StoreFacts.
Context {Data : Type}.
Context (format_json format_text : enhanced_data Data → string).
Context (joinpath : string → string → string).

(** Whatever the file system answers, [write_log] changes no file but the
    report file it names. *)
Theorem write_log_touches_one_file self iso_now p d now fs io other :
  other ≠ joinpath (output_dir self) (generate_filename self now) →
  (write_log format_json format_text joinpath self iso_now p d now fs io).2
    !! other = fs !! other.
Proof.
  intros Hne. rewrite write_log_outcomes. cbn zeta.
  destruct io; cbn [snd]; by rewrite ?lookup_insert_ne.
Qed.

(** Two reports of one logger in the same second get the same path, and the
    second replaces the first: the store ends as if only the second had been
    written. *)
Theorem same_second_reports_collide self iso1 iso2 p d1 d2 now fs :
  let first :=
    write_log format_json format_text joinpath self iso1 p d1 now fs IoDone in
  let second :=
    write_log format_json format_text joinpath self iso2 p d2 now first.2
      IoDone in
  first.1 = second.1 ∧
  second =
    write_log format_json format_text joinpath self iso2 p d2 now fs IoDone.
Proof.
  cbn zeta. rewrite !write_log_outcomes. cbn zeta. cbn [fst snd].
  split; [done |]. by rewrite insert_insert_eq.
Qed.

End StoreFacts.

Lemma write_log_touches_one_file_witness :
  "out/notes.txt" ≠
    slash (output_dir json_logger)
      (generate_filename json_logger "20260101_000000") ∧
  (write_log verbatim verbatim slash json_logger "2026-01-01T00:00:00"
     this_host "{ }" "20260101_000000"
     {["out/notes.txt" := "keep"]} (IoWriteError 1 OSError)).2
    !! "out/notes.txt" =
  ({["out/notes.txt" := "keep"]} : files) !! "out/notes.txt".
Proof.
  split; [discriminate |].
  apply (write_log_touches_one_file verbatim verbatim slash json_logger).
  discriminate.
Defined.

End ReportFileFacts.

(** ** collector.py: a whole run *)
Module RunFacts.
Import Collector CollectorSpec.

Lemma collect_all_metrics_handled probe :
  all_handled [OSError; OSError] (map snd (Metrics.ask_partitions probe)) =
    true →
  ∃ m, Metrics.collect_all_metrics probe = Ok m.
Proof.
  intros H. unfold Metrics.collect_all_metrics, Metrics.collect_disk_metrics.
  destruct (DiskFacts.disk_loop_handled _ ∅ H) as (d & -> & _). by eexists.
Qed.

Lemma collect_process_info_handled table_summary table_memory table_cpu top_n :
  all_handled [NoSuchProcess; AccessDenied] table_summary = true →
  all_handled [NoSuchProcess; AccessDenied; ZombieProcess] table_memory = true →
  all_handled [NoSuchProcess; AccessDenied; ZombieProcess] table_cpu = true →
  ∃ info,
    Processes.collect_process_info table_summary table_memory table_cpu top_n =
    Ok info.
Proof.
  intros Hs Hm Hc. unfold Processes.collect_process_info.
  destruct (ProcessProperties.get_process_summary_handled _ Hs)
    as (sc & _ & _ & ->).
  rewrite !ProcessFacts.enumerate_processes_handled by done.
  rewrite ProcessFacts.sort_processes_memory, ProcessFacts.sort_processes_cpu.
  by eexists.
Qed.

Lemma collect_network_connections_tolerant probe :
  connections_handled probe = true →
  ∃ connections, Network.collect_network_connections probe = Ok connections.
Proof.
  destruct probe as [items | e]; cbn [connections_handled]; intros H.
  - rewrite NetworkFacts.collect_network_connections_handled by done.
    by eexists.
  - unfold Network.collect_network_connections. rewrite H. by eexists.
Qed.

(** No failure of a single item stops the collection: when partitions,
    processes and connections fail only in the ways their loops handle, and
    the connection list is given or refused with access-denied,
    [collect_all] returns the data and has printed its three lines. *)
Theorem collect_all_tolerates_item_failures self os :
  items_handled os = true →
  connections_handled (ask_connections_summary os) = true →
  connections_handled (ask_connections_all os) = true →
  ∃ d,
    collect_all self os =
    (Ok d, ["Collecting system metrics..."; "Enumerating processes...";
            "Analyzing network connections..."]).
Proof.
  intros Hitems Hsum Hall. unfold items_handled in Hitems.
  apply andb_prop in Hitems as [Hitems Hc].
  apply andb_prop in Hitems as [Hitems Hm].
  apply andb_prop in Hitems as [Hd Hs].
  unfold collect_all.
  destruct (collect_all_metrics_handled _ Hd) as [m ->].
  destruct (collect_process_info_handled _ _ _ (top_processes self) Hs Hm Hc)
    as [p ->].
  destruct (collect_network_connections_tolerant _ Hsum) as [c1 H1].
  destruct (collect_network_connections_tolerant _ Hall) as [c2 H2].
  unfold Network.collect_network_info, Network.get_network_summary.
  rewrite H1. cbn. destruct (include_all_connections self).
  - rewrite H2. cbn. by eexists.
  - by eexists.
Qed.

Lemma collect_all_tolerates_item_failures_witness :
  items_handled sample_os = true ∧
  connections_handled (ask_connections_summary sample_os) = true ∧
  connections_handled (ask_connections_all sample_os) = true ∧
  ∃ d,
    collect_all sample_collector sample_os =
    (Ok d, ["Collecting system metrics..."; "Enumerating processes...";
            "Analyzing network connections..."]).
Proof.
  split; [reflexivity |]. split; [reflexivity |]. split; [reflexivity |].
  apply (collect_all_tolerates_item_failures sample_collector sample_os);
    reflexivity.
Defined.

Lemma collect_all_printed self os :
  ¬ In writing_line (collect_all self os).2.
Proof.
  unfold collect_all.
  repeat case_match; cbn; intros Hin; repeat destruct Hin as [Hin | Hin];
    try discriminate Hin; done.
Qed.

Section RunFacts.
Context (format_json format_text : Logger.enhanced_data health_data → string).
Context (joinpath : string → string → string).

(** When a collector raises, [run] raises the same exception before it
    touches the file store: no report file is created or changed, and the
    line that announces the write is not printed. *)
Theorem failed_collection_writes_nothing self os e iso_now p now fs io :
  (collect_all self os).1 = Raise e →
  ∃ printed,
    run format_json format_text joinpath self os iso_now p now fs io =
      (Raise e, fs, printed) ∧
    ¬ In writing_line printed.
Proof.
  intros H. pose proof (collect_all_printed self os) as Hp.
  unfold run. destruct (collect_all self os) as [[d | e'] printed];
    cbn [fst snd] in *; [discriminate |].
  injection H as ->. eexists. split; [reflexivity |].
  intros [Hin | [Hin | Hin]]; [discriminate | discriminate | done].
Qed.


End RunFacts.

Lemma failed_collection_writes_nothing_witness :
  (collect_all sample_collector broken_os).1 = Raise RuntimeError ∧
  ∃ printed,
    run as_json as_text LoggerSpec.slash sample_collector broken_os
      "2026-01-01T00:00:00" LoggerSpec.this_host "20260101_000000" ∅
      Logger.IoDone =
      (Raise RuntimeError, ∅, printed) ∧
    ¬ In writing_line printed.
Proof.
  split; [reflexivity |].
  apply (failed_collection_writes_nothing as_json as_text LoggerSpec.slash
           sample_collector broken_os RuntimeError).
  reflexivity.
Defined.


End RunFacts.
